(** * express-agent-kit: the chat endpoint of [src/index.ts]

    A shallow embedding of the two route handlers of the server
    ([POST /api/chat], [GET /api/health]) and of the module-level state
    they share ([agent], [config], [messageHistory]).

    The handlers are written in a small state-and-exception monad [Js]
    over the process state [World]; every call that leaves the module
    (the agent constructor chain, [agent.stream], [console.log],
    [console.error]) is recorded in the world's [trace].  Requests are
    handled one after the other.  The start of the process
    ([validateEnvironment], [app.listen]) and the middleware in front of
    the handlers are not part of the model: a handler starts from a
    parsed JSON body. *)

From stdpp Require Import base option list strings pretty gmap.

Set Warnings "-register-all".

(** ** JavaScript values *)

(** The values a JSON body or a message content can hold.  Numbers are
    the integers a double holds exactly (up to 2^53 in size), which
    print as their decimals; arrays nest. *)
Inductive JsValue :=
| JUndefined
| JNull
| JBool (b : bool)
| JNumber (n : Z)
| JString (s : string)
| JArray (items : list JsValue)
| JObject.

(** [!v] is [negb (js_truthy v)] (ToBoolean). *)
Definition js_truthy (v : JsValue) : bool :=
  match v with
  | JUndefined | JNull => false
  | JBool b => b
  | JNumber n => negb (n =? 0)%Z
  | JString s => negb (String.eqb s "")
  | JArray _ | JObject => true
  end.

(** [Array.prototype.join(sep)] on an array of strings. *)
Fixpoint join (sep : string) (xs : list string) : string :=
  match xs with
  | [] => ""
  | [x] => x
  | x :: rest => x +:+ sep +:+ join sep rest
  end.

(** [String(v)]. An array prints its items separated by commas, with
    [undefined] and [null] items printed as the empty string. *)
Fixpoint js_String (v : JsValue) : string :=
  match v with
  | JUndefined => "undefined"
  | JNull => "null"
  | JBool true => "true"
  | JBool false => "false"
  | JNumber n => pretty n
  | JString s => s
  | JArray items =>
      join "," (map (fun x => match x with
                              | JUndefined | JNull => ""
                              | _ => js_String x
                              end) items)
  | JObject => "[object Object]"
  end.

(** ** Messages, chunks, streams *)

Inductive MessageType := human | ai | tool | system.

Record BaseMessage := { msg_type : MessageType; content : JsValue }.

(** The session config built by [initializeAgent]:
    [{ configurable: { thread_id } }]. *)
Record Config := { thread_id : string }.

(** What one graph node reports in a chunk: [{ messages: [...] }]. *)
Record NodeUpdate := { messages : list BaseMessage }.

(** A chunk of the stream is an object keyed by node name; the handler
    looks at the keys ["agent"] and ["tools"]. *)
Abbreviation Chunk := (gmap string NodeUpdate).

(** The async iterable returned by [agent.stream]: it yields chunks and
    then either ends or throws. *)
Inductive Stream :=
| StreamEnd
| StreamThrow
| StreamYield (chunk : Chunk) (rest : Stream).

(** The reasoning engine. It keeps state of its own (its checkpoint
    memory, the model behind it), so what a call yields may depend on
    how many calls came before: [stream a k msgs cfg] is the stream of
    the call number [k] with input [{ messages: msgs }] and [cfg].  The
    handler passes the [messageHistory] array itself and pushes to it
    while it iterates; the pushed messages are the ones the stream has
    yielded, so a stream that reads them is still a function of the
    input at the call. *)
Record Agent := {
  stream : nat -> list BaseMessage -> option Config -> Stream
}.

(** ** Process state *)

Inductive Event :=
| InitializeAgent (returned : bool)
| AgentStream (input : list BaseMessage) (cfg : option Config)
| ConsoleLog (v : JsValue)
| ConsoleError (label : string).

(** The three module-level variables, and the calls made so far
    (oldest first). *)
Record World := {
  agent : option Agent;
  config : option Config;
  messageHistory : list BaseMessage;
  trace : list Event
}.

(** The variables as the module declares them.  The trace is counted
    from the first request: what the start of the process prints is
    in [main]. *)
Definition initial : World :=
  {| agent := None; config := None; messageHistory := []; trace := [] |}.

Definition is_init_call (e : Event) : bool :=
  match e with InitializeAgent _ => true | _ => false end.
Definition is_init_success (e : Event) : bool :=
  match e with InitializeAgent true => true | _ => false end.
Definition is_stream_call (e : Event) : bool :=
  match e with AgentStream _ _ => true | _ => false end.

Definition count (p : Event -> bool) (w : World) : nat :=
  length (filter (fun e => p e = true) (trace w)).

(** Calls of [initializeAgent], those that returned, and calls of
    [agent.stream] so far. *)
Definition init_calls : World -> nat := count is_init_call.
Definition init_successes : World -> nat := count is_init_success.
Definition stream_calls : World -> nat := count is_stream_call.

(** ** The monad of handler code *)

Inductive Completion (A : Type) :=
| Normal (a : A)
| Thrown.
Arguments Normal {A} a.
Arguments Thrown {A}.

Definition Js (A : Type) : Type := World -> Completion A * World.

Global Instance Js_ret : MRet Js := fun A a w => (Normal a, w).
Global Instance Js_bind : MBind Js := fun A B k m w =>
  match m w with
  | (Normal a, w') => k a w'
  | (Thrown, w') => (Thrown, w')
  end.

Definition throw {A} : Js A := fun w => (Thrown, w).

(** [try { body } catch (error) { handler }] *)
Definition try_catch {A} (body handler : Js A) : Js A := fun w =>
  match body w with
  | (Normal a, w') => (Normal a, w')
  | (Thrown, w') => handler w'
  end.

Definition emit (e : Event) : Js unit := fun w =>
  (Normal tt, {| agent := agent w; config := config w;
                 messageHistory := messageHistory w;
                 trace := trace w ++ [e] |}).

Definition console_log (v : JsValue) : Js unit := emit (ConsoleLog v).
Definition console_error (label : string) : Js unit := emit (ConsoleError label).

(** [messageHistory.push(m)] *)
Definition push (m : BaseMessage) : Js unit := fun w =>
  (Normal tt, {| agent := agent w; config := config w;
                 messageHistory := messageHistory w ++ [m];
                 trace := trace w |}).

(** [agent = a; config = c;] *)
Definition assign (a : Agent) (c : Config) : Js unit := fun w =>
  (Normal tt, {| agent := Some a; config := Some c;
                 messageHistory := messageHistory w;
                 trace := trace w |}).

(** An operation that returns a value or throws. *)
Definition or_throw {A} (o : option A) : Js A :=
  match o with
  | Some a => mret a
  | None => throw
  end.

(** [u.messages[0]] as the handler uses it: it reads [.content] of it
    first, which throws when the array is empty. *)
Definition first_message (u : NodeUpdate) : Js BaseMessage :=
  or_throw (messages u !! 0%nat).

(** ** HTTP *)

Inductive Body :=
| ResponseBody (response : string)
| ErrorBody (error : string)
| StatusBody (status : string).

Record Response := { status : nat; body : Body }.

(** [res.status(code).json(b)] *)
Definition res_status_json (code : nat) (b : Body) : Response :=
  {| status := code; body := b |}.
(** [res.json(b)] *)
Definition res_json (b : Body) : Response := res_status_json 200 b.

Inductive Request :=
| PostChat (req_body : gmap string JsValue)
| GetHealth.

(** ** Start of the process *)

(** [process.env[name]]: [undefined] or a string. *)
Definition env_get (env : gmap string string) (name : string) : JsValue :=
  match env !! name with
  | Some s => JString s
  | None => JUndefined
  end.

(** [s.toLowerCase()] on ASCII text, which the names it is applied to
    are: the letters A to Z are lowered, every other byte is kept. *)
Definition lower_ascii (c : Ascii.ascii) : Ascii.ascii :=
  let n := Ascii.nat_of_ascii c in
  if (65 <=? n)%nat && (n <=? 90)%nat then Ascii.ascii_of_nat (n + 32) else c.

Fixpoint toLowerCase (s : string) : string :=
  match s with
  | EmptyString => EmptyString
  | String c rest => String (lower_ascii c) (toLowerCase rest)
  end.

Definition requiredVars : list string :=
  ["OPENAI_API_KEY"; "RPC_URL"; "SOLANA_PRIVATE_KEY"].

(** The line printed for a missing variable:
    [`${varName}=your_${varName.toLowerCase()}_here`]. *)
Definition hint (varName : string) : string :=
  varName +:+ "=your_" +:+ toLowerCase varName +:+ "_here".

(** [requiredVars.forEach(...)]: the array [missingVars] after the loop. *)
Definition missing_vars (env : gmap string string) : list string :=
  foldl (fun missingVars varName =>
           if negb (js_truthy (env_get env varName))
           then missingVars ++ [varName]
           else missingVars)
        [] requiredVars.

(** [validateEnvironment()]: what it prints with [console.error], and
    the code it ends the process with ([process.exit(1)]), if any. *)
Definition validateEnvironment (env : gmap string string)
    : list Event * option nat :=
  let missingVars := missing_vars env in
  if (0 <? length missingVars)%nat then
    (ConsoleError "Error: Required environment variables are not set"
       :: ((fun varName => ConsoleError (hint varName)) <$> missingVars),
     Some 1%nat)
  else ([], None).

(** [const PORT = process.env.PORT || 3000] *)
Definition PORT (env : gmap string string) : JsValue :=
  let p := env_get env "PORT" in
  if js_truthy p then p else JNumber 3000.

(** The module from top to bottom, as far as it prints and exits:
    [validateEnvironment()], and, when that returns, [app.listen] with
    its callback.  Whether the server comes to listen is not in the
    hands of the module: [listen port] tells if [app.listen(port)]
    binds the port and runs the callback.  When it does not (a port out
    of range, a port in use) the exception is caught by nobody, the
    module prints nothing and the process ends with code 1. *)
Definition main (listen : JsValue -> bool) (env : gmap string string)
    : list Event * option nat :=
  match validateEnvironment env with
  | (errors, Some code) => (errors, Some code)
  | (errors, None) =>
      if listen (PORT env) then
        (errors ++ [ConsoleLog (JString ("Server is running on port "
                                         +:+ js_String (PORT env)))],
         None)
      else (errors, Some 1%nat)
  end.

(** A required variable that is unset or empty. *)
Definition is_missing (env : gmap string string) (varName : string) : Prop :=
  env !! varName = None \/ env !! varName = Some "".

Global Instance is_missing_dec env varName : Decision (is_missing env varName).
Proof. unfold is_missing. apply _. Defined.

Section Server.

(** The constructor chain in the [try] block of [initializeAgent]
    ([new ChatOpenAI], [new SolanaAgentKit], [createSolanaTools],
    [new MemorySaver], [createReactAgent]): at the call number [k]
    of [initializeAgent] it builds an agent or throws ([None]). *)
Variable createReactAgent : nat -> option Agent.

(** [new HumanMessage(v)] for [v] that is not a string: the content
    the library gives the message, or [None] when it throws. *)
Variable HumanMessage_content : JsValue -> option JsValue.

Definition session_config : Config := {| thread_id := "Solana Agent Kit!" |}.

Definition initializeAgent : Js (Agent * Config) := fun w =>
  match createReactAgent (init_calls w) with
  | Some a =>
      (emit (InitializeAgent true) ≫= fun _ =>
       mret (a, session_config)) w
  | None =>
      (emit (InitializeAgent false) ≫= fun _ =>
       console_error "Failed to initialize agent:" ≫= fun _ =>
       throw) w
  end.

(** [new HumanMessage(message)]; [None] when the constructor throws. *)
Definition HumanMessage (message : JsValue) : option BaseMessage :=
  match message with
  | JString s => Some {| msg_type := human; content := JString s |}
  | v => c ← HumanMessage_content v;
         Some {| msg_type := human; content := c |}
  end.

(** [await agent.stream({ messages: messageHistory }, config)] *)
Definition agent_stream : Js Stream := fun w =>
  match agent w with
  | Some a =>
      (emit (AgentStream (messageHistory w) (config w)) ≫= fun _ =>
       mret (stream a (stream_calls w) (messageHistory w) (config w))) w
  | None => throw w
  end.

(** [for await (const chunk of stream) { ... }], with the array
    [responses] built so far. *)
Fixpoint for_await (s : Stream) (responses : list string) : Js (list string) :=
  match s with
  | StreamEnd => mret responses
  | StreamThrow => throw
  | StreamYield chunk rest =>
      match chunk !! "agent" with
      | Some u =>
          m ← first_message u;
          let response := js_String (content m) in
          _ ← push m;
          for_await rest (responses ++ [response])
      | None =>
          match chunk !! "tools" with
          | Some u =>
              m ← first_message u;
              _ ← console_log (content m);
              for_await rest responses
          | None => for_await rest responses
          end
      end
  end.

(** [if (!agent) { ... }] *)
Definition lazy_init : Js unit := fun w =>
  match agent w with
  | Some _ => (Normal tt, w)
  | None => (initializeAgent ≫= fun initialized =>
             assign initialized.1 initialized.2) w
  end.

(** [const { message } = req.body] *)
Definition get_message (req_body : gmap string JsValue) : JsValue :=
  default JUndefined (req_body !! "message").

(** [app.post('/api/chat', ...)] *)
Definition chat (req_body : gmap string JsValue) : Js Response :=
  try_catch
    (let message := get_message req_body in
     if negb (js_truthy message) then
       mret (res_status_json 400 (ErrorBody "Message is required"))
     else
       _ ← lazy_init;
       newMessage ← or_throw (HumanMessage message);
       _ ← push newMessage;
       s ← agent_stream;
       responses ← for_await s [];
       mret (res_json (ResponseBody (join "" responses))))
    (_ ← console_error "Error processing chat:";
     mret (res_status_json 500 (ErrorBody "Internal server error"))).

(** [app.get('/api/health', ...)] *)
Definition health : Js Response :=
  mret (res_status_json 200 (StatusBody "ok")).

Definition serve (r : Request) : Js Response :=
  match r with
  | PostChat b => chat b
  | GetHealth => health
  end.

(** The process serving a sequence of requests. *)
Fixpoint run (rs : list Request) (w : World) : list Response * World :=
  match rs with
  | [] => ([], w)
  | r :: rest =>
      match serve r w with
      | (Normal resp, w') =>
          let '(resps, w'') := run rest w' in (resp :: resps, w'')
      | (Thrown, w') => ([], w')
      end
  end.

(** ** Reading a stream *)

(** The stream that yields the chunks [cs] and goes on as [tail]. *)
Fixpoint yields (cs : list Chunk) (tail : Stream) : Stream :=
  match cs with
  | [] => tail
  | c :: rest => StreamYield c (yields rest tail)
  end.

(** The message an agent step contributes: [chunk.agent.messages[0]]. *)
Definition agent_message (c : Chunk) : option BaseMessage :=
  u ← c !! "agent"; messages u !! 0%nat.

(** A tool step: a chunk with the key ["tools"] and without ["agent"]. *)
Definition is_tool_step (c : Chunk) : bool :=
  match c !! "agent", c !! "tools" with
  | None, Some _ => true
  | _, _ => false
  end.

(** What a tool step prints: [chunk.tools.messages[0].content]. *)
Definition tool_output (c : Chunk) : option JsValue :=
  match c !! "agent" with
  | Some _ => None
  | None => u ← c !! "tools"; m ← messages u !! 0%nat; Some (content m)
  end.

(** The loop body runs on [c] without a [TypeError]: the update it
    reads has a first message. *)
Definition readable (c : Chunk) : bool :=
  match c !! "agent", c !! "tools" with
  | Some u, _ => bool_decide (is_Some (messages u !! 0%nat))
  | None, Some u => bool_decide (is_Some (messages u !! 0%nat))
  | None, None => true
  end.

(** The stream stops the turn here with an exception: it throws, or its
    next chunk makes the loop body throw. *)
Definition fails (s : Stream) : bool :=
  match s with
  | StreamEnd => false
  | StreamThrow => true
  | StreamYield c _ => negb (readable c)
  end.

Definition agent_messages (cs : list Chunk) : list BaseMessage :=
  omap agent_message cs.
Definition agent_texts (cs : list Chunk) : list string :=
  (fun m => js_String (content m)) <$> agent_messages cs.
Definition tool_logs (cs : list Chunk) : list Event :=
  ConsoleLog <$> omap tool_output cs.

(** The steps as the specification names them, and the chunk the
    engine sends for each. *)
Inductive Emission :=
| AgentStep (m : BaseMessage)
| ToolStep (m : BaseMessage).

Definition chunk_of (e : Emission) : Chunk :=
  match e with
  | AgentStep m => {[ "agent" := {| messages := [m] |} ]}
  | ToolStep m => {[ "tools" := {| messages := [m] |} ]}
  end.

(** The stream with every agent update cut down to its first message
    and every chunk that has neither key removed. *)
Definition first_only (u : NodeUpdate) : NodeUpdate :=
  {| messages := take 1 (messages u) |}.

Fixpoint prune (s : Stream) : Stream :=
  match s with
  | StreamEnd => StreamEnd
  | StreamThrow => StreamThrow
  | StreamYield c rest =>
      match c !! "agent", c !! "tools" with
      | None, None => prune rest
      | _, _ => StreamYield (alter first_only "agent" c) (prune rest)
      end
  end.

(** A chunk described by what the loop can find in it: an agent update
    with a first message [m] and further messages [more]; a tools
    update, in a chunk without the key ["agent"]; a chunk with neither
    key.  [others] are the remaining keys of the chunk. *)
Inductive Step :=
| FromAgent (m : BaseMessage) (more : list BaseMessage) (others : Chunk)
| FromTools (m : BaseMessage) (more : list BaseMessage) (others : Chunk)
| Untagged (others : Chunk).

Definition chunk_of_step (s : Step) : Chunk :=
  match s with
  | FromAgent m more others =>
      <["agent" := {| messages := m :: more |}]> others
  | FromTools m more others =>
      <["tools" := {| messages := m :: more |}]> (delete "agent" others)
  | Untagged others => delete "agent" (delete "tools" others)
  end.

(** The first messages of the agent updates, in order. *)
Definition recorded (steps : list Step) : list BaseMessage :=
  omap (fun s => match s with
                 | FromAgent m _ _ => Some m
                 | _ => None
                 end) steps.

(** The handler after [lazy_init], from [new HumanMessage] to the
    response. *)
Definition turn (message : JsValue) : Js Response :=
  newMessage ← or_throw (HumanMessage message);
  _ ← push newMessage;
  s ← agent_stream;
  responses ← for_await s [];
  mret (res_json (ResponseBody (join "" responses))).

(** [catch (error) { ... }] of the chat handler. *)
Definition chat_catch : Js Response :=
  _ ← console_error "Error processing chat:";
  mret (res_status_json 500 (ErrorBody "Internal server error")).

(** The world a turn leaves behind when it started in [w1] (after
    [lazy_init]), pushed the user message [um], read the chunks [cs]
    and then ended ([failed = false]) or was stopped by an exception. *)
Definition after_turn (w1 : World) (um : BaseMessage) (cs : list Chunk)
    (failed : bool) : World :=
  {| agent := agent w1;
     config := config w1;
     messageHistory := messageHistory w1 ++ um :: agent_messages cs;
     trace := trace w1
              ++ AgentStream (messageHistory w1 ++ [um]) (config w1)
                 :: tool_logs cs
              ++ (if failed then [ConsoleError "Error processing chat:"] else []) |}.

Definition turn_response (cs : list Chunk) (failed : bool) : Response :=
  if failed then res_status_json 500 (ErrorBody "Internal server error")
  else res_json (ResponseBody (foldr String.append "" (agent_texts cs))).

(** ** What a turn can change *)

(** An event a turn may add once the agent is bound: anything but a
    call of [initializeAgent], and a call of the stream only with the
    config [c]. *)
Definition turn_event (c : option Config) (e : Event) : Prop :=
  match e with
  | InitializeAgent _ => False
  | AgentStream _ c' => c' = c
  | ConsoleLog _ | ConsoleError _ => True
  end.

(** [w'] comes from [w] by appending messages and turn events only. *)
Definition extends (w w' : World) : Prop :=
  agent w' = agent w
  /\ config w' = config w
  /\ (exists ms, messageHistory w' = messageHistory w ++ ms)
  /\ exists evs, trace w' = trace w ++ evs /\ Forall (turn_event (config w)) evs.

(** ** The invariant of the process *)

Definition stream_config_ok (e : Event) : Prop :=
  match e with
  | AgentStream _ c => c = Some session_config
  | _ => True
  end.

(** Agent and config are bound together, by the one call of
    [initializeAgent] that returned; before that nothing was pushed;
    every stream call got the session config. *)
Definition consistent (w : World) : Prop :=
  match agent w with
  | None => config w = None /\ messageHistory w = [] /\ init_successes w = 0%nat
  | Some _ => config w = Some session_config /\ init_successes w = 1%nat
  end
  /\ Forall stream_config_ok (trace w).

(** ** Sample engines and requests *)

Definition ai_text (s : string) : BaseMessage :=
  {| msg_type := ai; content := JString s |}.
Definition tool_text (s : string) : BaseMessage :=
  {| msg_type := tool; content := JString s |}.
Definition user_text (s : string) : BaseMessage :=
  {| msg_type := human; content := JString s |}.

(** An engine that answers every call with the stream [s]. *)
Definition scripted (s : Stream) : Agent := {| stream := fun _ _ _ => s |}.

(** A constructor chain that always builds [a]; one that throws on the
    first call and builds [a] afterwards; one that always throws. *)
Definition builds (a : Agent) : nat -> option Agent := fun _ => Some a.
Definition builds_on_retry (a : Agent) : nat -> option Agent :=
  fun k => match k with O => None | S _ => Some a end.
Definition never_builds : nat -> option Agent := fun _ => None.

(** A [HumanMessage] constructor that throws on everything but a string. *)
Definition strings_only : JsValue -> option JsValue := fun _ => None.

(** The body [{ "message": s }]. *)
Definition says (s : string) : gmap string JsValue := {[ "message" := JString s ]}.

(** An [app.listen] that binds every port, and one that binds the
    numeric ports and the ports written with at most four characters. *)
Definition binds_any : JsValue -> bool := fun _ => true.
Definition binds_short : JsValue -> bool :=
  fun port => match port with
              | JNumber _ => true
              | JString s => bool_decide (String.length s <= 4)%nat
              | _ => false
              end.

(** The process when the server has come to listen on port 3000. *)
Definition listening : World :=
  {| agent := None; config := None; messageHistory := [];
     trace := [ConsoleLog (JString "Server is running on port 3000")] |}.

(** The body [{ "message": 5 }]. *)
Definition says_five : gmap string JsValue := {[ "message" := JNumber 5 ]}.

(** The streams of the scenarios: the agent steps "A" and "B"; a tool
    step and then "Done"; the step "A" and then an exception where two
    more steps were expected; the single step "Hi there". *)
Definition steps_A_B : list Chunk :=
  [chunk_of (AgentStep (ai_text "A")); chunk_of (AgentStep (ai_text "B"))].
Definition steps_tool_Done : list Chunk :=
  [chunk_of (ToolStep (tool_text "balance: 5 SOL"));
   chunk_of (AgentStep (ai_text "Done"))].
Definition steps_A : list Chunk := [chunk_of (AgentStep (ai_text "A"))].
Definition steps_Hi_there : list Chunk :=
  [chunk_of (AgentStep (ai_text "Hi there"))].

(** The step "A" with a second message in its update, a chunk of
    another node, the step "B". *)
Definition steps_surplus : list Step :=
  [FromAgent (ai_text "A") [ai_text "dropped"] ∅;
   Untagged {[ "metadata" := {| messages := [ai_text "ignored"] |} ]};
   FromAgent (ai_text "B") [] ∅].

(** The process after "Hello" was answered "Hi there". *)
Definition greeted : World :=
  {| agent := Some (scripted (yields steps_Hi_there StreamEnd));
     config := Some session_config;
     messageHistory := [user_text "Hello"; ai_text "Hi there"];
     trace := [InitializeAgent true;
               AgentStream [user_text "Hello"] (Some session_config)] |}.

(** ** Vocabulary for the handler as a whole *)

(** The texts of messages, as [String(m.content)]. *)
Definition texts (ms : list BaseMessage) : list string :=
  (fun m => js_String (content m)) <$> ms.

(** The event the [catch] block of the chat handler leaves. *)
Definition is_chat_error (e : Event) : bool :=
  match e with
  | ConsoleError label => String.eqb label "Error processing chat:"
  | _ => false
  end.
Definition chat_errors : World -> nat := count is_chat_error.

Definition is_console_log (e : Event) : bool :=
  match e with ConsoleLog _ => true | _ => false end.

(** The events of [lazy_init]. *)
Definition init_event (e : Event) : Prop :=
  match e with
  | InitializeAgent _ => True
  | ConsoleError label => label = "Failed to initialize agent:"
  | _ => False
  end.

(** The events a process whose agent was never built can have made. *)
Definition failure_event (e : Event) : Prop :=
  match e with
  | InitializeAgent false | ConsoleError _ => True
  | _ => False
  end.

(** The four shapes a response of the server can take. *)
Definition well_shaped (resp : Response) : Prop :=
  resp = res_status_json 400 (ErrorBody "Message is required")
  \/ resp = res_status_json 500 (ErrorBody "Internal server error")
  \/ resp = res_status_json 200 (StatusBody "ok")
  \/ exists text, resp = res_json (ResponseBody text).

(** A request that gets past the message check of the chat handler. *)
Definition effective (r : Request) : bool :=
  match r with
  | PostChat b => js_truthy (get_message b)
  | GetHealth => false
  end.

(** The response and the event of the [catch] block. *)
Definition internal_error : Response :=
  res_status_json 500 (ErrorBody "Internal server error").
Definition chat_error : Event := ConsoleError "Error processing chat:".

(** The world after a turn that started in [w1] (after [lazy_init]),
    pushed [um], opened the stream, pushed the agent messages [ms],
    printed the tool outputs [vs] and left the events [closing]. *)
Definition turn_world (w1 : World) (um : BaseMessage)
    (ms : list BaseMessage) (vs : list JsValue) (closing : list Event) : World :=
  {| agent := agent w1;
     config := config w1;
     messageHistory := messageHistory w1 ++ um :: ms;
     trace := trace w1
              ++ AgentStream (messageHistory w1 ++ [um]) (config w1)
                 :: (ConsoleLog <$> vs) ++ closing |}.

(** What one request adds to the history, given its response: a health
    request and a chat request that fails before the push add nothing;
    a turn adds the user message of the request and then the agent
    messages [ms] whose texts make up the 200 answer, if it is one. *)
Definition turn_block (r : Request) (resp : Response)
    (block : list BaseMessage) : Prop :=
  match r with
  | GetHealth =>
      block = [] /\ resp = res_status_json 200 (StatusBody "ok")
  | PostChat b =>
      (block = []
       /\ (resp = res_status_json 400 (ErrorBody "Message is required")
           \/ resp = internal_error))
      \/ exists um ms,
           HumanMessage (get_message b) = Some um
           /\ block = um :: ms
           /\ (resp = internal_error
               \/ resp = res_json (ResponseBody
                                    (foldr String.append "" (texts ms))))
  end.

(** The text of the port in the line [app.listen] prints. *)
Definition port_text (env : gmap string string) : string :=
  match env !! "PORT" with
  | Some s => if String.eqb s "" then "3000" else s
  | None => "3000"
  end.

(** A complete environment, with and without a port, and one where
    [RPC_URL] is set to the empty string. *)
Definition env_complete : gmap string string :=
  {[ "OPENAI_API_KEY" := "sk-test"; "RPC_URL" := "https://rpc.example";
     "SOLANA_PRIVATE_KEY" := "key" ]}.
Definition env_with_port : gmap string string :=
  <["PORT" := "8080"]> env_complete.
Definition env_empty_rpc : gmap string string :=
  <["RPC_URL" := ""]> env_complete.

(** ** Basic facts *)

Lemma append_empty_r (s : string) : s +:+ "" = s.
Proof.
  induction s as [|c s IH]; [done |].
  change (String c (s +:+ "") = String c s). by rewrite IH.
Qed.

Lemma join_no_separator (xs : list string) :
  join "" xs = foldr String.append "" xs.
Proof.
  induction xs as [|x xs IH]; [done |].
  destruct xs as [|y ys]; simpl in *.
  - by rewrite append_empty_r.
  - by rewrite IH.
Qed.

Lemma chat_unfold (req_body : gmap string JsValue) :
  chat req_body =
  try_catch
    (if negb (js_truthy (get_message req_body)) then
       mret (res_status_json 400 (ErrorBody "Message is required"))
     else lazy_init ≫= fun _ => turn (get_message req_body))
    chat_catch.
Proof. reflexivity. Qed.

Lemma world_eta (w : World) :
  {| agent := agent w; config := config w;
     messageHistory := messageHistory w; trace := trace w |} = w.
Proof. by destruct w. Qed.

Lemma agent_messages_cons (c : Chunk) (cs : list Chunk) :
  agent_messages (c :: cs) =
  match agent_message c with
  | Some m => m :: agent_messages cs
  | None => agent_messages cs
  end.
Proof. reflexivity. Qed.

Lemma tool_logs_cons (c : Chunk) (cs : list Chunk) :
  tool_logs (c :: cs) =
  match tool_output c with
  | Some v => ConsoleLog v :: tool_logs cs
  | None => tool_logs cs
  end.
Proof. unfold tool_logs; simpl. by destruct (tool_output c). Qed.

Lemma agent_texts_cons (c : Chunk) (cs : list Chunk) :
  agent_texts (c :: cs) =
  match agent_message c with
  | Some m => js_String (content m) :: agent_texts cs
  | None => agent_texts cs
  end.
Proof. unfold agent_texts. rewrite agent_messages_cons. by destruct (agent_message c). Qed.

(** The loop over chunks it can read: the agent steps are pushed to the
    history and to [responses], the tool steps are printed. *)
Lemma for_await_yields (cs : list Chunk) :
  forall (tail : Stream) (responses : list string) (w : World),
  forallb readable cs = true ->
  for_await (yields cs tail) responses w =
  for_await tail (responses ++ agent_texts cs)
    {| agent := agent w; config := config w;
       messageHistory := messageHistory w ++ agent_messages cs;
       trace := trace w ++ tool_logs cs |}.
Proof.
  induction cs as [|c cs IH]; intros tail responses w Hok.
  - simpl. unfold agent_texts, agent_messages, tool_logs; simpl.
    by rewrite !app_nil_r, world_eta.
  - simpl in Hok. apply andb_prop in Hok as [Hc Hcs].
    rewrite agent_messages_cons, tool_logs_cons, agent_texts_cons.
    unfold readable, agent_message, tool_output in *. simpl.
    destruct (c !! "agent") as [u|] eqn:Ha; simpl.
    + apply bool_decide_eq_true in Hc as [m Hm].
      unfold first_message, mbind, Js_bind. rewrite Hm. simpl.
      rewrite IH by done. simpl. by rewrite <- !app_assoc.
    + destruct (c !! "tools") as [u|] eqn:Ht; simpl.
      * apply bool_decide_eq_true in Hc as [m Hm].
        unfold first_message, mbind, Js_bind. rewrite Hm. simpl.
        rewrite IH by done. simpl. by rewrite <- !app_assoc.
      * by rewrite IH.
Qed.

Lemma for_await_fails (tail : Stream) (responses : list string) (w : World) :
  fails tail = true -> for_await tail responses w = (Thrown, w).
Proof.
  destruct tail as [| |c rest]; simpl; [done | done |].
  unfold readable. intros Hc. apply negb_true_iff in Hc.
  destruct (c !! "agent") as [u|].
  - apply bool_decide_eq_false in Hc.
    unfold first_message, mbind, Js_bind.
    destruct (messages u !! 0%nat) as [m|] eqn:Hm; [|done].
    exfalso; apply Hc; eauto.
  - destruct (c !! "tools") as [u|]; [|done].
    apply bool_decide_eq_false in Hc.
    unfold first_message, mbind, Js_bind.
    destruct (messages u !! 0%nat) as [m|] eqn:Hm; [|done].
    exfalso; apply Hc; eauto.
Qed.

Lemma lazy_init_bound (w : World) (a : Agent) :
  agent w = Some a -> lazy_init w = (Normal tt, w).
Proof. unfold lazy_init. by intros ->. Qed.

Lemma lazy_init_unbound (w : World) :
  agent w = None ->
  lazy_init w =
  match createReactAgent (init_calls w) with
  | Some a =>
      (Normal tt,
       {| agent := Some a; config := Some session_config;
          messageHistory := messageHistory w;
          trace := trace w ++ [InitializeAgent true] |})
  | None =>
      (Thrown,
       {| agent := agent w; config := config w;
          messageHistory := messageHistory w;
          trace := trace w ++ [InitializeAgent false;
                               ConsoleError "Failed to initialize agent:"] |})
  end.
Proof.
  unfold lazy_init, initializeAgent, mbind, Js_bind. intros Hw.
  rewrite Hw. cbn beta.
  destruct (createReactAgent (init_calls w)) as [a|]; [reflexivity |].
  unfold console_error, emit, throw; simpl.
  by rewrite <- app_assoc, Hw.
Qed.

(** When the agent is bound after [lazy_init], the block completed
    normally, and it touched neither the history nor the stream. *)
Lemma lazy_init_ready (w : World) (a : Agent) :
  agent (lazy_init w).2 = Some a ->
  lazy_init w = (Normal tt, (lazy_init w).2)
  /\ messageHistory (lazy_init w).2 = messageHistory w
  /\ stream_calls (lazy_init w).2 = stream_calls w.
Proof.
  destruct (agent w) as [a0|] eqn:Hw.
  - rewrite (lazy_init_bound w a0 Hw). done.
  - rewrite (lazy_init_unbound w Hw).
    destruct (createReactAgent (init_calls w)) as [a1|]; simpl.
    + intros _. split; [done |]. split; [done |].
      unfold stream_calls, count; simpl.
      rewrite filter_app, length_app; simpl. lia.
    + by rewrite Hw.
Qed.

(** One turn on a stream that is read up to [tail], where it ends or
    fails. *)
Lemma turn_reads (message : JsValue) (w1 : World) (um : BaseMessage)
    (a : Agent) (cs : list Chunk) (tail : Stream) :
  HumanMessage message = Some um ->
  agent w1 = Some a ->
  stream a (stream_calls w1) (messageHistory w1 ++ [um]) (config w1)
    = yields cs tail ->
  forallb readable cs = true ->
  tail = StreamEnd \/ fails tail = true ->
  try_catch (turn message) chat_catch w1
  = (Normal (turn_response cs (fails tail)), after_turn w1 um cs (fails tail)).
Proof.
  intros Hum Ha Hs Hcs Htail.
  unfold try_catch, turn, agent_stream, mbind, Js_bind.
  rewrite Hum; simpl. rewrite Ha; simpl.
  unfold stream_calls, count in *; simpl. rewrite Hs.
  rewrite for_await_yields by done. simpl.
  destruct Htail as [-> | Hf].
  - simpl. unfold turn_response, after_turn, mret, Js_ret; simpl.
    rewrite join_no_separator, app_nil_r. by rewrite Ha, <- !app_assoc.
  - rewrite for_await_fails by done. rewrite Hf.
    unfold chat_catch, console_error, emit, mbind, Js_bind, mret, Js_ret; simpl.
    unfold turn_response, after_turn; simpl.
    by rewrite Ha, <- !app_assoc.
Qed.

(** The same for the whole handler. *)
Lemma chat_turn (w : World) (req_body : gmap string JsValue)
    (um : BaseMessage) (a : Agent) (cs : list Chunk) (tail : Stream) :
  js_truthy (get_message req_body) = true ->
  HumanMessage (get_message req_body) = Some um ->
  agent (lazy_init w).2 = Some a ->
  stream a (stream_calls w) (messageHistory w ++ [um]) (config (lazy_init w).2)
    = yields cs tail ->
  forallb readable cs = true ->
  tail = StreamEnd \/ fails tail = true ->
  chat req_body w
  = (Normal (turn_response cs (fails tail)),
     after_turn (lazy_init w).2 um cs (fails tail)).
Proof.
  intros Hmsg Hum Ha Hs Hcs Htail.
  destruct (lazy_init_ready w a Ha) as (Hinit & Hhist & Hcalls).
  rewrite <- Hhist, <- Hcalls in Hs.
  pose proof (turn_reads _ _ _ _ _ _ Hum Ha Hs Hcs Htail) as Hturn.
  rewrite chat_unfold. rewrite Hmsg. simpl.
  unfold try_catch in *. unfold mbind at 1. unfold Js_bind at 1.
  rewrite Hinit. exact Hturn.
Qed.

Lemma extends_refl (w : World) : extends w w.
Proof.
  repeat split; [by exists []; rewrite app_nil_r |].
  exists []. by rewrite app_nil_r.
Qed.

Lemma extends_trans (w1 w2 w3 : World) :
  extends w1 w2 -> extends w2 w3 -> extends w1 w3.
Proof.
  intros (Ha & Hc & [ms Hm] & evs & Ht & Hq) (Ha' & Hc' & [ms' Hm'] & evs' & Ht' & Hq').
  repeat split; [congruence | congruence | |].
  - exists (ms ++ ms'). by rewrite Hm', Hm, app_assoc.
  - exists (evs ++ evs'). split; [by rewrite Ht', Ht, app_assoc |].
    apply Forall_app. split; [done |]. by rewrite <- Hc.
Qed.

Lemma extends_push (m : BaseMessage) (w : World) : extends w (push m w).2.
Proof.
  repeat split; simpl; [by eexists |].
  exists []. by rewrite app_nil_r.
Qed.

Lemma extends_emit (e : Event) (w : World) :
  turn_event (config w) e -> extends w (emit e w).2.
Proof.
  intros He. repeat split; simpl; [by exists []; rewrite app_nil_r |].
  exists [e]. split; [done |]. by constructor.
Qed.

Lemma for_await_extends (s : Stream) :
  forall (responses : list string) (w : World),
  extends w (for_await s responses w).2.
Proof.
  induction s as [| |c rest IH]; intros responses w; simpl;
    [apply extends_refl | apply extends_refl |].
  destruct (c !! "agent") as [u|].
  - unfold first_message, mbind, Js_bind.
    destruct (messages u !! 0%nat) as [m|]; simpl; [|apply extends_refl].
    eapply extends_trans; [apply (extends_push m) | apply IH].
  - destruct (c !! "tools") as [u|]; [|apply IH].
    unfold first_message, mbind, Js_bind.
    destruct (messages u !! 0%nat) as [m|]; simpl; [|apply extends_refl].
    eapply extends_trans; [apply (extends_emit (ConsoleLog (content m))) | apply IH].
    done.
Qed.

(** Once the agent is bound, the rest of the handler returns a response
    and only extends the world. *)
Lemma chat_catch_extends (w w0 : World) :
  extends w w0 ->
  exists resp, (chat_catch w0).1 = Normal resp /\ extends w (chat_catch w0).2.
Proof.
  intros Hw0. eexists. split; [reflexivity |].
  eapply extends_trans; [exact Hw0 |].
  apply (extends_emit (ConsoleError "Error processing chat:")). done.
Qed.

Lemma turn_extends (message : JsValue) (w : World) :
  exists resp, (try_catch (turn message) chat_catch w).1 = Normal resp
  /\ extends w (try_catch (turn message) chat_catch w).2.
Proof.
  unfold try_catch, turn, mbind, Js_bind.
  destruct (HumanMessage message) as [um|]; cbn -[chat_catch];
    [|apply chat_catch_extends, extends_refl].
  unfold agent_stream.
  destruct (agent w) as [a|] eqn:Ha; cbn -[chat_catch];
    [|apply chat_catch_extends; rewrite <- Ha; apply (extends_push um w)].
  unfold mbind, Js_bind, mret, Js_ret, emit; cbn -[chat_catch].
  set (w2 := {| agent := Some a; config := config w;
                messageHistory := messageHistory w ++ [um];
                trace := trace w ++ [AgentStream (messageHistory w ++ [um]) (config w)] |}).
  assert (Hw2 : extends w w2).
  { repeat split; simpl; [done | by eexists |].
    eexists. split; [done |]. by constructor. }
  pose proof (for_await_extends
    (stream a (stream_calls w) (messageHistory w ++ [um]) (config w)) [] w2) as Hloop.
  unfold stream_calls, count in *; cbn -[chat_catch] in *.
  destruct (for_await _ [] w2) as [[responses|] w3]; cbn -[chat_catch] in *.
  - eexists. split; [reflexivity |]. by eapply extends_trans.
  - apply chat_catch_extends. by eapply extends_trans.
Qed.

(** ** The handler case by case *)

Lemma chat_falsy (req_body : gmap string JsValue) (w : World) :
  js_truthy (get_message req_body) = false ->
  chat req_body w
  = (Normal (res_status_json 400 (ErrorBody "Message is required")), w).
Proof. intros Hm. rewrite chat_unfold. unfold try_catch. by rewrite Hm. Qed.

Lemma chat_bound (req_body : gmap string JsValue) (w : World) (a : Agent) :
  agent w = Some a ->
  exists resp, (chat req_body w).1 = Normal resp
               /\ extends w (chat req_body w).2.
Proof.
  intros Ha.
  destruct (js_truthy (get_message req_body)) eqn:Hm.
  - rewrite chat_unfold, Hm. cbn [negb].
    pose proof (turn_extends (get_message req_body) w) as Hturn.
    unfold try_catch in *. unfold mbind at 1 2. unfold Js_bind at 1 2.
    by rewrite (lazy_init_bound w a Ha).
  - rewrite chat_falsy by done. eexists. split; [done | apply extends_refl].
Qed.

Lemma chat_init_fails (req_body : gmap string JsValue) (w : World) :
  js_truthy (get_message req_body) = true ->
  agent w = None ->
  createReactAgent (init_calls w) = None ->
  chat req_body w
  = (Normal (res_status_json 500 (ErrorBody "Internal server error")),
     {| agent := agent w; config := config w;
        messageHistory := messageHistory w;
        trace := trace w ++ [InitializeAgent false;
                             ConsoleError "Failed to initialize agent:";
                             ConsoleError "Error processing chat:"] |}).
Proof.
  intros Hm Ha Hc. rewrite chat_unfold, Hm. cbn [negb].
  unfold try_catch. unfold mbind at 1. unfold Js_bind at 1.
  rewrite (lazy_init_unbound w Ha), Hc.
  unfold chat_catch, console_error, emit, mbind, Js_bind, mret, Js_ret; simpl.
  by rewrite <- app_assoc.
Qed.

Lemma chat_init_ok (req_body : gmap string JsValue) (w : World) (a : Agent) :
  js_truthy (get_message req_body) = true ->
  agent w = None ->
  createReactAgent (init_calls w) = Some a ->
  exists resp, (chat req_body w).1 = Normal resp
  /\ extends {| agent := Some a; config := Some session_config;
                messageHistory := messageHistory w;
                trace := trace w ++ [InitializeAgent true] |}
             (chat req_body w).2.
Proof.
  intros Hm Ha Hc. rewrite chat_unfold, Hm. cbn [negb].
  unfold try_catch. unfold mbind at 1 2. unfold Js_bind at 1 2.
  rewrite (lazy_init_unbound w Ha), Hc.
  apply turn_extends.
Qed.

Lemma chat_returns (req_body : gmap string JsValue) (w : World) :
  exists resp, (chat req_body w).1 = Normal resp.
Proof.
  destruct (js_truthy (get_message req_body)) eqn:Hm;
    [|rewrite chat_falsy by done; by eexists].
  destruct (agent w) as [a|] eqn:Ha.
  - destruct (chat_bound req_body w a Ha) as (resp & Hr & _). by exists resp.
  - destruct (createReactAgent (init_calls w)) as [a|] eqn:Hc.
    + destruct (chat_init_ok req_body w a Hm Ha Hc) as (resp & Hr & _). by exists resp.
    + rewrite chat_init_fails by done. by eexists.
Qed.

(** ** Counting calls *)

Lemma turn_events_no_init (c : option Config) (evs : list Event) :
  Forall (turn_event c) evs ->
  filter (fun e => is_init_call e = true) evs = []
  /\ filter (fun e => is_init_success e = true) evs = [].
Proof.
  induction 1 as [|e evs He _ [IH1 IH2]]; [done |].
  rewrite !filter_cons.
  destruct e as [b| | |]; simpl in *; try done.
Qed.

Lemma extends_init_calls (w w' : World) :
  extends w w' ->
  init_calls w' = init_calls w /\ init_successes w' = init_successes w.
Proof.
  intros (_ & _ & _ & evs & Ht & Hq).
  destruct (turn_events_no_init _ _ Hq) as [H1 H2].
  unfold init_calls, init_successes, count.
  rewrite Ht, !filter_app, H1, H2, !app_nil_r. done.
Qed.

Lemma consistent_initial : consistent initial.
Proof. repeat split. constructor. Qed.

Lemma extends_consistent (w w' : World) (a : Agent) :
  agent w = Some a -> consistent w -> extends w w' -> consistent w'.
Proof.
  intros Ha [Hw Htr] Hext.
  destruct (extends_init_calls w w' Hext) as [_ Hsucc].
  destruct Hext as (Ha' & Hc' & _ & evs & Ht & Hq).
  unfold consistent. rewrite Ha', Ha, Hc', Hsucc, Ht.
  rewrite Ha in Hw. destruct Hw as [Hcfg Hone].
  split; [done |].
  apply Forall_app. split; [done |].
  eapply Forall_impl; [exact Hq |].
  intros [b|input c|v|l]; simpl; [done | congruence | done | done].
Qed.

Lemma chat_consistent (req_body : gmap string JsValue) (w : World) :
  consistent w -> consistent (chat req_body w).2.
Proof.
  intros Hw.
  destruct (js_truthy (get_message req_body)) eqn:Hm;
    [|by rewrite chat_falsy].
  destruct (agent w) as [a|] eqn:Ha.
  - destruct (chat_bound req_body w a Ha) as (resp & _ & Hext).
    by eapply extends_consistent.
  - destruct Hw as [Hw Htr]. rewrite Ha in Hw. destruct Hw as (Hcfg & Hhist & Hzero).
    destruct (createReactAgent (init_calls w)) as [a|] eqn:Hc.
    + destruct (chat_init_ok req_body w a Hm Ha Hc) as (resp & _ & Hext).
      eapply extends_consistent; [| |exact Hext]; [done |].
      split; simpl.
      * split; [done |]. unfold init_successes, count in *; simpl.
        rewrite filter_app, length_app, Hzero. done.
      * apply Forall_app. split; [done |]. by repeat constructor.
    + rewrite chat_init_fails by done. split; simpl.
      * rewrite Ha. repeat split; [done | done |].
        unfold init_successes, count in *; simpl.
        rewrite filter_app, length_app, Hzero. done.
      * apply Forall_app. split; [done |]. by repeat constructor.
Qed.

Lemma serve_returns (r : Request) (w : World) :
  exists resp, (serve r w).1 = Normal resp.
Proof. destruct r; [apply chat_returns | by eexists]. Qed.

Lemma serve_consistent (r : Request) (w : World) :
  consistent w -> consistent (serve r w).2.
Proof. destruct r; [apply chat_consistent | done]. Qed.

Lemma run_consistent (rs : list Request) :
  forall w, consistent w -> consistent (run rs w).2.
Proof.
  induction rs as [|r rs IH]; intros w Hw; [done |].
  simpl. pose proof (serve_consistent r w Hw) as Hstep.
  destruct (serve r w) as [[resp|] w1]; simpl in *; [|done].
  specialize (IH w1 Hstep). by destruct (run rs w1).
Qed.

(** Every request gets a response. *)
Lemma run_length (rs : list Request) :
  forall w, length (run rs w).1 = length rs.
Proof.
  induction rs as [|r rs IH]; intros w; [done |].
  simpl. destruct (serve_returns r w) as [resp Hr].
  destruct (serve r w) as [[resp'|] w1]; simpl in *; [|done].
  specialize (IH w1). destruct (run rs w1); simpl in *. by rewrite IH.
Qed.

(** ** Tool steps and surplus messages *)

Lemma tool_step_no_message (c : Chunk) :
  is_tool_step c = true -> agent_message c = None.
Proof.
  unfold is_tool_step, agent_message.
  by destruct (c !! "agent"), (c !! "tools").
Qed.

Lemma agent_messages_without_tools (cs : list Chunk) :
  agent_messages (filter (fun c => is_tool_step c = false) cs) = agent_messages cs.
Proof.
  induction cs as [|c cs IH]; [done |].
  rewrite filter_cons. destruct (decide (is_tool_step c = false)) as [Hc|Hc].
  - by rewrite !agent_messages_cons, IH.
  - apply not_false_is_true in Hc.
    by rewrite agent_messages_cons, (tool_step_no_message c Hc).
Qed.

Lemma agent_texts_without_tools (cs : list Chunk) :
  agent_texts (filter (fun c => is_tool_step c = false) cs) = agent_texts cs.
Proof. unfold agent_texts. by rewrite agent_messages_without_tools. Qed.

Lemma first_message_first_only (u : NodeUpdate) :
  first_message (first_only u) = first_message u.
Proof.
  unfold first_message, first_only; simpl.
  by rewrite lookup_take_lt by lia.
Qed.

Lemma for_await_prune (s : Stream) :
  forall (responses : list string) (w : World),
  for_await (prune s) responses w = for_await s responses w.
Proof.
  induction s as [| |c rest IH]; intros responses w; [done | done |].
  simpl.
  destruct (c !! "agent") as [u|] eqn:Ha.
  - simpl. rewrite lookup_alter_eq, Ha. simpl.
    rewrite first_message_first_only.
    unfold mbind, Js_bind.
    destruct (first_message u w) as [[m|] w1]; [|done].
    unfold push. apply IH.
  - destruct (c !! "tools") as [u|] eqn:Ht; [|apply IH].
    simpl. rewrite lookup_alter_eq, Ha. simpl.
    rewrite lookup_alter_ne by done. rewrite Ht.
    unfold mbind, Js_bind.
    destruct (first_message u w) as [[m|] w1]; [|done].
    unfold console_log, emit. apply IH.
Qed.

(** ** The claims *)

(** C1. The turn result is the concatenation of the agent-step texts in
    the order of emission: when the stream of the turn yields the chunks
    [cs] and ends, the handler answers 200 with the texts
    [String(chunk.agent.messages[0].content)] of the agent chunks of
    [cs], appended one after the other with nothing in between, none
    moved and none dropped.  For the steps "A" then "B" this is "AB". *)
Theorem turn_result_is_concatenation (w : World)
    (req_body : gmap string JsValue) (um : BaseMessage) (a : Agent)
    (cs : list Chunk) :
  js_truthy (get_message req_body) = true ->
  HumanMessage (get_message req_body) = Some um ->
  agent (lazy_init w).2 = Some a ->
  stream a (stream_calls w) (messageHistory w ++ [um]) (config (lazy_init w).2)
    = yields cs StreamEnd ->
  forallb readable cs = true ->
  (chat req_body w).1
  = Normal (res_json (ResponseBody (foldr String.append "" (agent_texts cs)))).
Proof.
  intros Hm Hum Ha Hs Hcs.
  by rewrite (chat_turn w req_body um a cs StreamEnd Hm Hum Ha Hs Hcs (or_introl eq_refl)).
Qed.

(** C2. Tool output never reaches the turn result: the response of a
    turn is the one computed from its chunks with the tool steps taken
    out.  For a tool step followed by the agent step "Done" the result
    is "Done". *)
Theorem tool_output_not_in_result (w : World)
    (req_body : gmap string JsValue) (um : BaseMessage) (a : Agent)
    (cs : list Chunk) :
  js_truthy (get_message req_body) = true ->
  HumanMessage (get_message req_body) = Some um ->
  agent (lazy_init w).2 = Some a ->
  stream a (stream_calls w) (messageHistory w ++ [um]) (config (lazy_init w).2)
    = yields cs StreamEnd ->
  forallb readable cs = true ->
  (chat req_body w).1
  = Normal (res_json (ResponseBody (foldr String.append ""
      (agent_texts (filter (fun c => is_tool_step c = false) cs))))).
Proof.
  intros Hm Hum Ha Hs Hcs.
  rewrite (chat_turn w req_body um a cs StreamEnd Hm Hum Ha Hs Hcs (or_introl eq_refl)).
  by rewrite agent_texts_without_tools.
Qed.

(** C3. A turn stopped by an exception after the chunks [cs] answers
    500 "Internal server error" and leaves in the history the user
    message and the agent messages of [cs], the ones pushed before the
    failure: nothing is rolled back and nothing is added. *)
Theorem failed_turn_keeps_partial_history (w : World)
    (req_body : gmap string JsValue) (um : BaseMessage) (a : Agent)
    (cs : list Chunk) (tail : Stream) :
  js_truthy (get_message req_body) = true ->
  HumanMessage (get_message req_body) = Some um ->
  agent (lazy_init w).2 = Some a ->
  stream a (stream_calls w) (messageHistory w ++ [um]) (config (lazy_init w).2)
    = yields cs tail ->
  forallb readable cs = true ->
  fails tail = true ->
  (chat req_body w).1
  = Normal (res_status_json 500 (ErrorBody "Internal server error"))
  /\ messageHistory (chat req_body w).2
     = messageHistory w ++ um :: agent_messages cs.
Proof.
  intros Hm Hum Ha Hs Hcs Hf.
  destruct (lazy_init_ready w a Ha) as (_ & Hhist & _).
  rewrite (chat_turn w req_body um a cs tail Hm Hum Ha Hs Hcs (or_intror Hf)).
  rewrite Hf. simpl. by rewrite Hhist.
Qed.

(** C4. A request whose [message] field is absent or the empty string
    is answered 400 "Message is required" and changes nothing: no
    message is pushed, no agent is built, no stream is opened. *)
Theorem missing_message_rejected (w : World) (req_body : gmap string JsValue) :
  req_body !! "message" = None \/ req_body !! "message" = Some (JString "") ->
  chat req_body w
  = (Normal (res_status_json 400 (ErrorBody "Message is required")), w).
Proof.
  intros Hb. apply chat_falsy. unfold get_message.
  by destruct Hb as [-> | ->].
Qed.

Lemma chat_unbound_calls (req_body : gmap string JsValue) (w : World) :
  agent w = None ->
  js_truthy (get_message req_body) = true ->
  init_calls (chat req_body w).2 = S (init_calls w).
Proof.
  intros Ha Hm.
  destruct (createReactAgent (init_calls w)) as [a|] eqn:Hc.
  - destruct (chat_init_ok req_body w a Hm Ha Hc) as (resp & _ & Hext).
    apply extends_init_calls in Hext as [-> _].
    unfold init_calls, count; simpl.
    rewrite filter_app, length_app; simpl. lia.
  - rewrite chat_init_fails by done.
    unfold init_calls, count; simpl.
    rewrite filter_app, length_app; simpl. lia.
Qed.

(** C5. Initialization is lazy and happens once.  In any state the
    process can reach: when the agent is bound, a request leaves agent
    and config as they are and does not call [initializeAgent]; when it
    is not, the config is unset and the history empty, a request with a
    message calls [initializeAgent] once, and either binds the agent
    and the session config, or (the constructor threw) is answered 500
    and leaves agent, config and history as they were, so that the next
    request with a message calls [initializeAgent] again. *)
Theorem initialization_lazy_and_once (rs : list Request)
    (req_body next_body : gmap string JsValue) :
  let w := (run rs initial).2 in
  let w' := (chat req_body w).2 in
  match agent w with
  | Some a =>
      agent w' = Some a /\ config w' = config w /\ init_calls w' = init_calls w
  | None =>
      config w = None /\ messageHistory w = [] /\
      if js_truthy (get_message req_body) then
        init_calls w' = S (init_calls w) /\
        match createReactAgent (init_calls w) with
        | Some a => agent w' = Some a /\ config w' = Some session_config
        | None =>
            (chat req_body w).1
            = Normal (res_status_json 500 (ErrorBody "Internal server error"))
            /\ agent w' = None /\ config w' = None /\ messageHistory w' = []
            /\ init_calls (chat next_body w').2
               = if js_truthy (get_message next_body)
                 then S (S (init_calls w)) else S (init_calls w)
        end
      else w' = w
  end.
Proof.
  intros w w'. subst w'.
  pose proof (run_consistent rs initial consistent_initial) as [Hw _].
  fold w in Hw.
  destruct (agent w) as [a|] eqn:Ha.
  - destruct (chat_bound req_body w a Ha) as (resp & _ & Hext).
    destruct (extends_init_calls _ _ Hext) as [Hcalls _].
    destruct Hext as (Ha' & Hc' & _). by rewrite Ha', Ha.
  - destruct Hw as (Hcfg & Hhist & _). split; [done |]. split; [done |].
    destruct (js_truthy (get_message req_body)) eqn:Hm;
      [|by rewrite chat_falsy].
    split; [by apply chat_unbound_calls |].
    destruct (createReactAgent (init_calls w)) as [a|] eqn:Hc.
    + destruct (chat_init_ok req_body w a Hm Ha Hc) as (resp & _ & Hext).
      destruct Hext as (Ha' & Hc' & _). by rewrite Ha', Hc'.
    + pose proof (chat_unbound_calls req_body w Ha Hm) as Hcalls.
      rewrite chat_init_fails in * by done. simpl in *.
      repeat split; [done | done | done |].
      destruct (js_truthy (get_message next_body)) eqn:Hn.
      * rewrite chat_unbound_calls by done. by rewrite Hcalls.
      * by rewrite chat_falsy.
Qed.

(** C6. A turn whose stream is a single agent step answers 200 with the
    text of that step (a string content is returned as it is), and the
    history grows by two messages: the user message, pushed before the
    stream is opened, and the message of the step. *)
Theorem single_agent_step_turn (w : World)
    (req_body : gmap string JsValue) (um : BaseMessage) (a : Agent)
    (c : Chunk) (m : BaseMessage) :
  js_truthy (get_message req_body) = true ->
  HumanMessage (get_message req_body) = Some um ->
  agent (lazy_init w).2 = Some a ->
  stream a (stream_calls w) (messageHistory w ++ [um]) (config (lazy_init w).2)
    = yields [c] StreamEnd ->
  agent_message c = Some m ->
  (chat req_body w).1 = Normal (res_json (ResponseBody (js_String (content m))))
  /\ messageHistory (chat req_body w).2 = messageHistory w ++ [um; m]
  /\ length (messageHistory (chat req_body w).2)
     = (length (messageHistory w) + 2)%nat.
Proof.
  intros Hm Hum Ha Hs Hc.
  assert (Hok : forallb readable [c] = true).
  { simpl. unfold readable, agent_message in *.
    destruct (c !! "agent") as [u|]; [|done]. simpl in Hc.
    rewrite Hc. by rewrite bool_decide_eq_true_2. }
  destruct (lazy_init_ready w a Ha) as (_ & Hhist & _).
  rewrite (chat_turn w req_body um a [c] StreamEnd Hm Hum Ha Hs Hok (or_introl eq_refl)).
  unfold turn_response, after_turn. cbn [fst snd messageHistory].
  rewrite agent_texts_cons, agent_messages_cons, Hc, Hhist.
  unfold agent_texts, agent_messages. simpl.
  rewrite append_empty_r.
  repeat split. rewrite length_app; simpl. lia.
Qed.

(** C8. The health endpoint answers 200 with status "ok" in every
    state, bound agent or not, and touches nothing. *)
Theorem health_always_ok (w : World) :
  serve GetHealth w = (Normal {| status := 200; body := StatusBody "ok" |}, w).
Proof. reflexivity. Qed.

(** C9. Tool steps leave no message in the history: after a turn the
    history is the old one, the user message and the first messages of
    the agent chunks, the same as if the stream had no tool step; what
    a tool step carries goes to [console.log] only. *)
Theorem tool_steps_not_in_history (w : World)
    (req_body : gmap string JsValue) (um : BaseMessage) (a : Agent)
    (cs : list Chunk) (tail : Stream) :
  js_truthy (get_message req_body) = true ->
  HumanMessage (get_message req_body) = Some um ->
  agent (lazy_init w).2 = Some a ->
  stream a (stream_calls w) (messageHistory w ++ [um]) (config (lazy_init w).2)
    = yields cs tail ->
  forallb readable cs = true ->
  tail = StreamEnd \/ fails tail = true ->
  messageHistory (chat req_body w).2
  = messageHistory w ++ um
      :: agent_messages (filter (fun c => is_tool_step c = false) cs)
  /\ trace (chat req_body w).2
     = trace (lazy_init w).2
       ++ AgentStream (messageHistory w ++ [um]) (config (lazy_init w).2)
          :: (ConsoleLog <$> omap tool_output cs)
       ++ (if fails tail then [ConsoleError "Error processing chat:"] else []).
Proof.
  intros Hm Hum Ha Hs Hcs Htail.
  destruct (lazy_init_ready w a Ha) as (_ & Hhist & _).
  rewrite (chat_turn w req_body um a cs tail Hm Hum Ha Hs Hcs Htail).
  unfold after_turn; simpl.
  by rewrite agent_messages_without_tools, Hhist.
Qed.

Lemma readable_chunk_of_step (s : Step) : readable (chunk_of_step s) = true.
Proof.
  destruct s as [m more others|m more others|others];
    unfold readable; simpl.
  - by rewrite lookup_insert_eq.
  - rewrite lookup_insert_ne by done. rewrite lookup_delete_eq.
    by rewrite lookup_insert_eq.
  - rewrite lookup_delete_eq.
    rewrite lookup_delete_ne by done. by rewrite lookup_delete_eq.
Qed.

Lemma agent_message_chunk_of_step (s : Step) :
  agent_message (chunk_of_step s)
  = match s with FromAgent m _ _ => Some m | _ => None end.
Proof.
  destruct s as [m more others|m more others|others];
    unfold agent_message; simpl.
  - by rewrite lookup_insert_eq.
  - rewrite lookup_insert_ne by done. by rewrite lookup_delete_eq.
  - by rewrite lookup_delete_eq.
Qed.

Lemma agent_messages_steps (steps : list Step) :
  agent_messages (chunk_of_step <$> steps) = recorded steps.
Proof.
  induction steps as [|s steps IH]; [done |].
  rewrite fmap_cons, agent_messages_cons, agent_message_chunk_of_step, IH.
  by destruct s.
Qed.

Lemma readable_steps (steps : list Step) :
  forallb readable (chunk_of_step <$> steps) = true.
Proof.
  induction steps as [|s steps IH]; [done |].
  rewrite fmap_cons. simpl. by rewrite readable_chunk_of_step, IH.
Qed.

(** C10. Of an agent chunk the handler uses [messages[0]] alone, and a
    chunk with neither the key ["agent"] nor the key ["tools"] counts
    for nothing.  When the stream of a turn is made of agent updates
    [m :: more], tools updates and untagged chunks, the answer is 200
    with the texts of the first messages [m] of the agent updates, and
    the history gains the user message and those [m]: no message of a
    [more], nothing of an untagged chunk, and no error on account of
    either.  The history is the same when the turn is stopped by an
    exception after these chunks (the answer is then 500). *)
Theorem only_first_message_counts (w : World)
    (req_body : gmap string JsValue) (um : BaseMessage) (a : Agent)
    (steps : list Step) (tail : Stream) :
  js_truthy (get_message req_body) = true ->
  HumanMessage (get_message req_body) = Some um ->
  agent (lazy_init w).2 = Some a ->
  stream a (stream_calls w) (messageHistory w ++ [um]) (config (lazy_init w).2)
    = yields (chunk_of_step <$> steps) tail ->
  tail = StreamEnd \/ fails tail = true ->
  (chat req_body w).1
  = Normal (if fails tail
            then res_status_json 500 (ErrorBody "Internal server error")
            else res_json (ResponseBody
                   (foldr String.append ""
                      ((fun m => js_String (content m)) <$> recorded steps))))
  /\ messageHistory (chat req_body w).2
     = messageHistory w ++ um :: recorded steps.
Proof.
  intros Hm Hum Ha Hs Htail.
  destruct (lazy_init_ready w a Ha) as (_ & Hhist & _).
  rewrite (chat_turn w req_body um a (chunk_of_step <$> steps) tail
             Hm Hum Ha Hs (readable_steps steps) Htail).
  unfold turn_response, after_turn, agent_texts; simpl.
  by rewrite agent_messages_steps, Hhist.
Qed.

(** The loop cannot tell a stream from the one with the surplus
    messages and the untagged chunks removed. *)
Lemma for_await_step (c : Chunk) (m : BaseMessage)
    (more : list BaseMessage) (rest : Stream)
    (responses : list string) (w : World) :
  for_await (StreamYield (<["agent" := {| messages := m :: more |}]> c) rest)
      responses w
  = for_await rest (responses ++ [js_String (content m)]) (push m w).2
  /\ for_await (StreamYield (delete "agent" (delete "tools" c)) rest) responses w
     = for_await rest responses w.
Proof.
  split.
  - simpl. by rewrite lookup_insert_eq.
  - simpl. rewrite lookup_delete_eq.
    rewrite lookup_delete_ne by done. by rewrite lookup_delete_eq.
Qed.

(** ** The start of the process *)

Lemma is_missing_falsy (env : gmap string string) (varName : string) :
  negb (js_truthy (env_get env varName)) = true <-> is_missing env varName.
Proof.
  unfold env_get, is_missing.
  destruct (env !! varName) as [s|]; simpl.
  - rewrite negb_involutive, String.eqb_eq.
    split; [intros ->; by right | intros [H|H]; congruence].
  - split; [by left | done].
Qed.

Lemma collect_missing (env : gmap string string) (vars : list string) :
  forall acc : list string,
  foldl (fun missingVars varName =>
           if negb (js_truthy (env_get env varName))
           then missingVars ++ [varName]
           else missingVars)
        acc vars
  = acc ++ filter (is_missing env) vars.
Proof.
  induction vars as [|v vars IH]; intros acc; simpl; [by rewrite app_nil_r |].
  rewrite IH, filter_cons.
  destruct (negb (js_truthy (env_get env v))) eqn:Hv.
  - apply is_missing_falsy in Hv. rewrite decide_True by done.
    by rewrite <- app_assoc.
  - rewrite decide_False; [done |].
    intros Hm. apply is_missing_falsy in Hm. congruence.
Qed.

Lemma missing_vars_filter (env : gmap string string) :
  missing_vars env = filter (is_missing env) requiredVars.
Proof. unfold missing_vars. by rewrite collect_missing. Qed.

Lemma validateEnvironment_cases (env : gmap string string) :
  validateEnvironment env =
  match filter (is_missing env) requiredVars with
  | [] => ([], None)
  | missing =>
      (ConsoleError "Error: Required environment variables are not set"
         :: ((fun varName => ConsoleError (hint varName)) <$> missing),
       Some 1%nat)
  end.
Proof.
  unfold validateEnvironment. rewrite missing_vars_filter.
  by destruct (filter (is_missing env) requiredVars).
Qed.

(** ** The loop and the handler on any stream *)

Lemma for_await_effect (s : Stream) :
  forall (responses : list string) (w : World),
  exists (ms : list BaseMessage) (vs : list JsValue),
    (for_await s responses w).2
    = {| agent := agent w; config := config w;
         messageHistory := messageHistory w ++ ms;
         trace := trace w ++ (ConsoleLog <$> vs) |}
    /\ forall rs, (for_await s responses w).1 = Normal rs ->
                  rs = responses ++ texts ms.
Proof.
  induction s as [| |c rest IH]; intros responses w; simpl.
  - exists [], []. simpl. rewrite !app_nil_r, world_eta.
    split; [done |]. by intros rs [= <-].
  - exists [], []. simpl. by rewrite !app_nil_r, world_eta.
  - destruct (c !! "agent") as [u|].
    + unfold first_message, mbind, Js_bind.
      destruct (messages u !! 0%nat) as [m|]; simpl.
      * destruct (IH (responses ++ [js_String (content m)]) (push m w).2)
          as (ms & vs & Hw & Hrs).
        exists (m :: ms), vs. simpl in *. rewrite Hw.
        split; [by rewrite <- app_assoc |].
        intros rs Hr. rewrite (Hrs rs Hr). by rewrite <- app_assoc.
      * exists [], []. simpl. by rewrite !app_nil_r, world_eta.
    + destruct (c !! "tools") as [u|]; [|apply IH].
      unfold first_message, mbind, Js_bind.
      destruct (messages u !! 0%nat) as [m|]; simpl.
      * destruct (IH responses (console_log (content m) w).2)
          as (ms & vs & Hw & Hrs).
        exists ms, (content m :: vs). simpl in *. rewrite Hw.
        split; [by rewrite <- app_assoc |]. done.
      * exists [], []. simpl. by rewrite !app_nil_r, world_eta.
Qed.

(** The handler on a request with a message, step by step. *)
Lemma chat_truthy (req_body : gmap string JsValue) (w : World) :
  js_truthy (get_message req_body) = true ->
  chat req_body w =
  match lazy_init w with
  | (Thrown, w1) => chat_catch w1
  | (Normal _, w1) =>
      match HumanMessage (get_message req_body) with
      | None => chat_catch w1
      | Some um =>
          match agent w1 with
          | None => chat_catch (push um w1).2
          | Some a =>
              match for_await
                      (stream a (stream_calls w1) (messageHistory w1 ++ [um])
                              (config w1))
                      []
                      {| agent := agent w1; config := config w1;
                         messageHistory := messageHistory w1 ++ [um];
                         trace := trace w1
                                  ++ [AgentStream (messageHistory w1 ++ [um])
                                                  (config w1)] |}
              with
              | (Normal rs, w3) =>
                  (Normal (res_json (ResponseBody (join "" rs))), w3)
              | (Thrown, w3) => chat_catch w3
              end
          end
      end
  end.
Proof.
  intros Hm. rewrite chat_unfold, Hm. cbn [negb].
  unfold try_catch. unfold mbind at 1. unfold Js_bind at 1.
  destruct (lazy_init w) as [[[]|] w1]; [|done].
  unfold turn, mbind, Js_bind.
  destruct (HumanMessage (get_message req_body)) as [um|]; [|done].
  cbn -[chat_catch for_await]. unfold agent_stream.
  destruct (agent w1) as [a|] eqn:Ha; cbn -[chat_catch for_await]; [|done].
  unfold mbind, Js_bind, emit, mret, Js_ret. cbn -[chat_catch for_await].
  unfold stream_calls, count. cbn -[chat_catch for_await].
  by destruct (for_await _ _ _) as [[rs|] w3].
Qed.

(** What [lazy_init] does to the world. *)
Lemma lazy_init_effect (w : World) :
  exists evs,
    messageHistory (lazy_init w).2 = messageHistory w
    /\ trace (lazy_init w).2 = trace w ++ evs
    /\ Forall init_event evs
    /\ match (lazy_init w).1 with
       | Normal _ => is_Some (agent (lazy_init w).2)
       | Thrown => agent w = None
                   /\ agent (lazy_init w).2 = None
                   /\ config (lazy_init w).2 = config w
       end.
Proof.
  destruct (agent w) as [a|] eqn:Ha.
  - rewrite (lazy_init_bound w a Ha). exists []. simpl.
    rewrite app_nil_r, Ha. by eauto.
  - rewrite (lazy_init_unbound w Ha).
    destruct (createReactAgent (init_calls w)) as [a|]; simpl.
    + eexists. repeat split; [by repeat constructor | by eauto].
    + eexists. repeat split; [by repeat constructor | done].
Qed.

(** ** Further properties of the start of the process *)

(** X1. [validateEnvironment] ends the process, with code 1, exactly
    when one of the three required variables is unset or set to the
    empty string; when it does not, it prints nothing. *)
Theorem validateEnvironment_exit (env : gmap string string) :
  ((validateEnvironment env).2 = Some 1%nat
   <-> exists varName, varName ∈ requiredVars /\ is_missing env varName)
  /\ ((validateEnvironment env).2 = None
      <-> validateEnvironment env = ([], None))
  /\ ((validateEnvironment env).2 = None
      \/ (validateEnvironment env).2 = Some 1%nat).
Proof.
  rewrite validateEnvironment_cases.
  destruct (filter (is_missing env) requiredVars) as [|v vs] eqn:Hf; simpl.
  - split; [|split; [by split | by left]]. split; [done |].
    intros (v & Hv & Hm).
    assert (v ∈ filter (is_missing env) requiredVars) as Hin
      by by apply list_elem_of_filter.
    rewrite Hf in Hin. by apply elem_of_nil in Hin.
  - split; [|split; [by split | by right]]. split; [|done].
    intros _. exists v.
    assert (v ∈ filter (is_missing env) requiredVars) as Hin
      by (rewrite Hf; apply list_elem_of_here).
    apply list_elem_of_filter in Hin as [Hm Hv]. done.
Qed.

(** X2. When it reports, [validateEnvironment] prints the heading and
    then one hint line for each required variable that is unset or
    empty, in the order of [requiredVars], and for no other. *)
Theorem validateEnvironment_report (env : gmap string string) :
  (validateEnvironment env).1 =
  match filter (is_missing env) requiredVars with
  | [] => []
  | missing =>
      ConsoleError "Error: Required environment variables are not set"
        :: ((fun varName => ConsoleError (hint varName)) <$> missing)
  end.
Proof.
  rewrite validateEnvironment_cases.
  by destruct (filter (is_missing env) requiredVars).
Qed.

(** X3. The server comes to listen exactly when no required variable
    is missing and [app.listen] binds the port; the module then prints
    the one line that names the port: the value of [PORT] when that is
    set and not empty, 3000 otherwise.  With a variable missing the
    module prints the report of [validateEnvironment] and exits at
    once, without calling [app.listen]; when the port cannot be bound
    it prints nothing and the process ends with code 1. *)
Theorem main_listens_iff_configured (listen : JsValue -> bool)
    (env : gmap string string) :
  ((main listen env).2 = None
   <-> Forall (fun varName => ~ is_missing env varName) requiredVars
       /\ listen (PORT env) = true)
  /\ js_String (PORT env) = port_text env
  /\ main listen env =
     match (validateEnvironment env).2 with
     | Some code => validateEnvironment env
     | None =>
         if listen (PORT env) then
           ([ConsoleLog (JString ("Server is running on port "
                                  +:+ port_text env))], None)
         else ([], Some 1%nat)
     end.
Proof.
  assert (Hport : js_String (PORT env) = port_text env).
  { unfold PORT, port_text, env_get.
    destruct (env !! "PORT") as [s|]; simpl; [|done].
    by destruct (String.eqb s ""). }
  split; [|split; [done |]].
  - unfold main. rewrite validateEnvironment_cases.
    destruct (filter (is_missing env) requiredVars) as [|v vs] eqn:Hf; simpl.
    + assert (Forall (fun varName => ~ is_missing env varName) requiredVars)
        as Hall.
      { apply Forall_forall. intros v Hv Hm.
        assert (v ∈ filter (is_missing env) requiredVars) as Hin
          by by apply list_elem_of_filter.
        rewrite Hf in Hin. by apply elem_of_nil in Hin. }
      destruct (listen (PORT env)); simpl; split; try done.
      by intros [_ ?].
    + split; [done |]. intros [Hall _].
      assert (v ∈ filter (is_missing env) requiredVars) as Hin
        by (rewrite Hf; apply list_elem_of_here).
      apply list_elem_of_filter in Hin as [Hm Hv].
      rewrite Forall_forall in Hall. by destruct (Hall v Hv).
  - unfold main. rewrite Hport. rewrite validateEnvironment_cases.
    destruct (filter (is_missing env) requiredVars) as [|v vs]; simpl; [|done].
    by destruct (listen (PORT env)).
Qed.

(** ** The handler on any engine *)

Lemma chat_catch_eq (w : World) :
  chat_catch w = (Normal internal_error, (emit chat_error w).2).
Proof. reflexivity. Qed.

(** A request with a message either fails before the stream is opened
    (the constructor chain or [new HumanMessage] threw), or opens the
    stream once and ends with 200 or 500. *)
Lemma chat_effect (req_body : gmap string JsValue) (w : World) :
  js_truthy (get_message req_body) = true ->
  (chat req_body w = (Normal internal_error, (emit chat_error (lazy_init w).2).2)
   /\ ((lazy_init w).1 = Thrown \/ HumanMessage (get_message req_body) = None))
  \/ exists um a ms vs,
       HumanMessage (get_message req_body) = Some um
       /\ (lazy_init w).1 = Normal tt
       /\ agent (lazy_init w).2 = Some a
       /\ (chat req_body w
           = (Normal (res_json (ResponseBody (foldr String.append "" (texts ms)))),
              turn_world (lazy_init w).2 um ms vs [])
           \/ chat req_body w
              = (Normal internal_error,
                 turn_world (lazy_init w).2 um ms vs [chat_error])).
Proof.
  intros Hm. rewrite (chat_truthy _ _ Hm).
  destruct (lazy_init_effect w) as (ievs & _ & _ & _ & Hcase).
  destruct (lazy_init w) as [[[]|] w1]; simpl in *; [|left; by auto].
  destruct (HumanMessage (get_message req_body)) as [um|]; [|left; by auto].
  destruct Hcase as [a Ha]. rewrite Ha. right. exists um, a.
  match goal with |- context [for_await ?s ?rs ?w2] =>
    destruct (for_await_effect s rs w2) as (ms & vs & Hw & Hrs);
    destruct (for_await s rs w2) as [[rs'|] w3] end; simpl in *; subst w3.
  - exists ms, vs. do 3 (split; [done |]). left.
    rewrite (Hrs rs' eq_refl). simpl. rewrite join_no_separator.
    unfold turn_world. by rewrite Ha, app_nil_r, <- !app_assoc.
  - exists ms, vs. do 3 (split; [done |]). right.
    rewrite chat_catch_eq. unfold turn_world, emit, chat_error; simpl.
    by rewrite Ha, <- !app_assoc.
Qed.

Lemma chat_shape (req_body : gmap string JsValue) (w : World) :
  exists resp, (chat req_body w).1 = Normal resp
  /\ if js_truthy (get_message req_body)
     then resp = internal_error \/ exists text, resp = res_json (ResponseBody text)
     else resp = res_status_json 400 (ErrorBody "Message is required").
Proof.
  destruct (js_truthy (get_message req_body)) eqn:Hm.
  - destruct (chat_effect req_body w Hm)
      as [[-> _] | (um & a & ms & vs & _ & _ & _ & [-> | ->])]; simpl; eauto.
  - rewrite chat_falsy by done. eauto.
Qed.

Lemma count_extended (p : Event -> bool) (w w' : World) (evs : list Event) :
  trace w' = trace w ++ evs ->
  count p w' = (count p w + length (filter (fun e => p e = true) evs))%nat.
Proof. unfold count. intros ->. by rewrite filter_app, length_app. Qed.

Lemma filter_console_logs (p : Event -> bool) (vs : list JsValue) :
  (forall v, p (ConsoleLog v) = false) ->
  filter (fun e => p e = true) (ConsoleLog <$> vs) = [].
Proof.
  intros Hp. induction vs as [|v vs IH]; [done |].
  rewrite fmap_cons, filter_cons, IH.
  rewrite decide_False; [done |]. by rewrite Hp.
Qed.

(** ** Further properties of the handlers *)

Lemma chat_history_prefix (req_body : gmap string JsValue) (w : World) :
  messageHistory w `prefix_of` messageHistory (chat req_body w).2.
Proof.
  destruct (js_truthy (get_message req_body)) eqn:Hm;
    [|by rewrite chat_falsy].
  destruct (lazy_init_effect w) as (ievs & Hh & _).
  destruct (chat_effect req_body w Hm)
    as [[-> _] | (um & a & ms & vs & _ & _ & _ & [-> | ->])]; simpl;
    rewrite Hh; first [reflexivity | by exists (um :: ms)].
Qed.

(** X4. The history is append-only: whatever the requests, the engine
    and the failures, the history the process had is a prefix of the
    one it has afterwards. *)
Theorem history_append_only (rs : list Request) (w : World) :
  messageHistory w `prefix_of` messageHistory (run rs w).2.
Proof.
  revert w. induction rs as [|r rs IH]; intros w; [done |].
  simpl.
  assert (messageHistory w `prefix_of` messageHistory (serve r w).2) as Hstep.
  { destruct r; [apply chat_history_prefix | done]. }
  destruct (serve r w) as [[resp|] w1]; simpl in *; [|done].
  specialize (IH w1). destruct (run rs w1) as [resps w2]; simpl in *.
  by etrans.
Qed.

(** X5. No exception leaves a handler: every request of a sequence gets
    its response, and a response is one of four: 400 "Message is
    required", 500 "Internal server error", 200 with status "ok", or
    200 with a response text.  What went wrong is never in the body. *)
Theorem every_request_answered (rs : list Request) (w : World) :
  length (run rs w).1 = length rs /\ Forall well_shaped (run rs w).1.
Proof.
  split; [apply run_length |].
  revert w. induction rs as [|r rs IH]; intros w; [by constructor |].
  simpl.
  assert (exists resp, (serve r w).1 = Normal resp /\ well_shaped resp)
    as (resp & Hr & Hshape).
  { destruct r as [b|]; simpl.
    - destruct (chat_shape b w) as (resp & Hr & Hs). exists resp.
      split; [done |]. unfold well_shaped.
      destruct (js_truthy (get_message b)); [|by left].
      destruct Hs as [-> | Hs]; by auto.
    - eexists. split; [done |]. unfold well_shaped. by auto. }
  destruct (serve r w) as [[resp'|] w1]; simpl in *; [|done].
  injection Hr as ->.
  specialize (IH w1). destruct (run rs w1) as [resps w2]; simpl in *.
  by constructor.
Qed.

(** X6. The chat handler answers 400 exactly when the message is falsy
    for JavaScript: absent, [null], [false], [0] or the empty string.
    Every other message gets 200 or 500. *)
Theorem bad_request_iff_falsy_message (req_body : gmap string JsValue)
    (w : World) :
  exists resp, (chat req_body w).1 = Normal resp
  /\ (status resp = 400%nat <-> js_truthy (get_message req_body) = false)
  /\ (status resp = 400%nat \/ status resp = 200%nat \/ status resp = 500%nat).
Proof.
  destruct (chat_shape req_body w) as (resp & Hr & Hs). exists resp.
  split; [done |].
  destruct (js_truthy (get_message req_body)).
  - destruct Hs as [-> | [text ->]]; simpl; split; (split; [done | done]) || by auto.
  - subst resp. simpl. split; [done | by auto].
Qed.

(** X7. A 200 answer of the chat handler and the history agree: the
    turn appended the user message and then some messages [ms], and the
    response text is the texts of exactly those [ms], in order. *)
Theorem ok_response_matches_history (req_body : gmap string JsValue)
    (w : World) (text : string) :
  (chat req_body w).1 = Normal (res_json (ResponseBody text)) ->
  exists um ms,
    HumanMessage (get_message req_body) = Some um
    /\ messageHistory (chat req_body w).2 = messageHistory w ++ um :: ms
    /\ text = foldr String.append "" (texts ms).
Proof.
  intros Hr.
  destruct (js_truthy (get_message req_body)) eqn:Hm;
    [|by rewrite chat_falsy in Hr].
  destruct (lazy_init_effect w) as (ievs & Hh & _).
  destruct (chat_effect req_body w Hm)
    as [[Hc _] | (um & a & ms & vs & Hum & _ & _ & [Hc | Hc])];
    rewrite Hc in *; simpl in *; [done | | done].
  exists um, ms. rewrite Hh. by injection Hr as ->.
Qed.

(** X8. A request with a message that the constructor accepts, on a
    bound agent, opens the stream exactly once, with the whole history
    ending in the new user message and with the config; the user
    message stays in the history whether the turn ends well or not. *)
Theorem stream_opened_once_with_history (req_body : gmap string JsValue)
    (w : World) (um : BaseMessage) (a : Agent) :
  js_truthy (get_message req_body) = true ->
  HumanMessage (get_message req_body) = Some um ->
  agent (lazy_init w).2 = Some a ->
  exists ms vs closing,
    messageHistory (chat req_body w).2 = messageHistory w ++ um :: ms
    /\ trace (chat req_body w).2
       = trace (lazy_init w).2
         ++ AgentStream (messageHistory w ++ [um]) (config (lazy_init w).2)
            :: (ConsoleLog <$> vs) ++ closing
    /\ (closing = [] \/ closing = [chat_error])
    /\ stream_calls (chat req_body w).2 = S (stream_calls w).
Proof.
  intros Hm Hum Ha.
  destruct (lazy_init_ready w a Ha) as (Hinit & Hh & Hcalls).
  assert (forall ms vs closing,
            closing = [] \/ closing = [chat_error] ->
            stream_calls (turn_world (lazy_init w).2 um ms vs closing)
            = S (stream_calls w)) as Hcount.
  { intros ms vs closing Hcl. rewrite <- Hcalls.
    unfold stream_calls at 1.
    rewrite (count_extended is_stream_call (lazy_init w).2
               (turn_world (lazy_init w).2 um ms vs closing) _ eq_refl).
    rewrite filter_cons, decide_True by done.
    rewrite filter_app, filter_console_logs by done.
    destruct Hcl as [-> | ->]; simpl; unfold stream_calls; lia. }
  destruct (chat_effect req_body w Hm)
    as [[_ [Hc | Hc]] | (um' & a' & ms & vs & Hum' & _ & _ & Hc)].
  - rewrite Hinit in Hc. done.
  - congruence.
  - assert (um' = um) as -> by congruence.
    destruct Hc as [-> | ->]; simpl; rewrite Hh.
    + exists ms, vs, []. rewrite <- Hh. split; [done |]. rewrite Hh.
      split; [done |]. split; [by left |]. apply Hcount. by left.
    + exists ms, vs, [chat_error]. rewrite <- Hh. split; [done |]. rewrite Hh.
      split; [done |]. split; [by right |]. apply Hcount. by right.
Qed.

(** X9. When [new HumanMessage] throws, the request is answered 500
    with nothing pushed and no stream opened; the lazy initialization
    has run before it, so an agent built by this request stays bound. *)
Theorem message_constructor_failure (req_body : gmap string JsValue)
    (w : World) :
  js_truthy (get_message req_body) = true ->
  HumanMessage (get_message req_body) = None ->
  (chat req_body w).1 = Normal internal_error
  /\ messageHistory (chat req_body w).2 = messageHistory w
  /\ stream_calls (chat req_body w).2 = stream_calls w
  /\ agent (chat req_body w).2
     = match agent w with
       | Some a => Some a
       | None => createReactAgent (init_calls w)
       end.
Proof.
  intros Hm Hum.
  assert (agent (lazy_init w).2
          = match agent w with
            | Some a => Some a
            | None => createReactAgent (init_calls w)
            end) as Hagent.
  { destruct (agent w) as [a|] eqn:Ha.
    - by rewrite (lazy_init_bound w a Ha).
    - rewrite (lazy_init_unbound w Ha).
      destruct (createReactAgent (init_calls w)); simpl; [done | by rewrite Ha]. }
  destruct (lazy_init_effect w) as (ievs & Hh & Ht & Hi & _).
  assert (filter (fun e => is_stream_call e = true) ievs = []) as Hnone.
  { clear Ht. induction Hi as [|e evs He _ IH]; [done |].
    rewrite filter_cons, IH. by destruct e. }
  destruct (chat_effect req_body w Hm)
    as [[-> _] | (um & a & ms & vs & Hum' & _)]; [|congruence].
  cbn [fst snd]. split; [done |]. split; [done |]. split; [|done].
  unfold stream_calls.
  rewrite (count_extended is_stream_call w
             (emit chat_error (lazy_init w).2).2 (ievs ++ [chat_error])).
  - rewrite filter_app, Hnone. simpl. lia.
  - simpl. by rewrite Ht, <- app_assoc.
Qed.

Lemma chat_stays_bound (req_body : gmap string JsValue) (w : World) :
  is_Some (agent w) -> is_Some (agent (chat req_body w).2).
Proof.
  intros [a Ha].
  destruct (chat_bound req_body w a Ha) as (resp & _ & Ha' & _).
  rewrite Ha', Ha. by eexists.
Qed.

(** A request to a process whose agent is not bound either binds it or
    adds nothing but failures. *)
Lemma chat_unbound_adds_failures (req_body : gmap string JsValue) (w : World) :
  agent w = None ->
  is_Some (agent (chat req_body w).2)
  \/ (agent (chat req_body w).2 = None
      /\ messageHistory (chat req_body w).2 = messageHistory w
      /\ exists evs, trace (chat req_body w).2 = trace w ++ evs
                     /\ Forall failure_event evs).
Proof.
  intros Ha.
  destruct (js_truthy (get_message req_body)) eqn:Hm.
  - destruct (createReactAgent (init_calls w)) as [a|] eqn:Hc.
    + left. destruct (chat_init_ok req_body w a Hm Ha Hc) as (resp & _ & Ha' & _).
      rewrite Ha'. by eexists.
    + right. rewrite chat_init_fails by done. simpl.
      split; [done |]. split; [done |].
      eexists. split; [done |]. by repeat constructor.
  - right. rewrite chat_falsy by done. simpl.
    split; [done |]. split; [done |].
    exists []. by rewrite app_nil_r.
Qed.

Lemma run_stays_bound (rs : list Request) :
  forall w, is_Some (agent w) -> is_Some (agent (run rs w).2).
Proof.
  induction rs as [|r rs IH]; intros w Hw; [done |].
  simpl.
  assert (is_Some (agent (serve r w).2)) as Hs.
  { destruct r as [b|]; simpl; [by apply chat_stays_bound | done]. }
  destruct (serve r w) as [[resp|] w1]; simpl in *; [|done].
  specialize (IH w1 Hs). by destruct (run rs w1).
Qed.

Lemma run_unbound_adds_failures (rs : list Request) :
  forall w,
  agent w = None ->
  is_Some (agent (run rs w).2)
  \/ (agent (run rs w).2 = None
      /\ messageHistory (run rs w).2 = messageHistory w
      /\ exists evs, trace (run rs w).2 = trace w ++ evs
                     /\ Forall failure_event evs).
Proof.
  induction rs as [|r rs IH]; intros w Ha.
  - right. simpl. split; [done |]. split; [done |].
    exists []. by rewrite app_nil_r.
  - simpl.
    assert (is_Some (agent (serve r w).2)
            \/ (agent (serve r w).2 = None
                /\ messageHistory (serve r w).2 = messageHistory w
                /\ exists evs, trace (serve r w).2 = trace w ++ evs
                               /\ Forall failure_event evs)) as Hstep.
    { destruct r as [b|]; simpl; [by apply chat_unbound_adds_failures |].
      right. split; [done |]. split; [done |].
      exists []. by rewrite app_nil_r. }
    pose proof (run_stays_bound rs) as Hbound.
    destruct (serve r w) as [[resp|] w1]; simpl in *;
      [|destruct Hstep as [Hb | Hq]; [by left | by right]].
    destruct Hstep as [Hb | (Ha1 & Hh1 & evs1 & Ht1 & Hf1)].
    + left. specialize (Hbound w1 Hb). by destruct (run rs w1).
    + specialize (IH w1 Ha1). destruct (run rs w1) as [resps w2]; simpl in *.
      destruct IH as [Hb | (Ha2 & Hh2 & evs2 & Ht2 & Hf2)]; [by left |].
      right. split; [done |]. split; [congruence |].
      exists (evs1 ++ evs2). split; [by rewrite Ht2, Ht1, app_assoc |].
      by apply Forall_app.
Qed.

(** X10. Nothing happens before the agent is built.  Start the process
    in any state where the agent is not bound, for instance the state
    after the server has come to listen; after any requests, either the
    agent is bound, or the history is as it was and the requests have
    made no outside call but failed calls of [initializeAgent] and
    [console.error] lines: no stream was opened and nothing was printed
    with [console.log] since the start. *)
Theorem nothing_before_initialization (rs : list Request) (w0 : World) :
  agent w0 = None ->
  is_Some (agent (run rs w0).2)
  \/ (agent (run rs w0).2 = None
      /\ messageHistory (run rs w0).2 = messageHistory w0
      /\ stream_calls (run rs w0).2 = stream_calls w0
      /\ count is_console_log (run rs w0).2 = count is_console_log w0
      /\ exists evs, trace (run rs w0).2 = trace w0 ++ evs
                     /\ Forall failure_event evs).
Proof.
  intros Ha0.
  destruct (run_unbound_adds_failures rs w0 Ha0)
    as [Hb | (Ha & Hh & evs & Ht & Hf)]; [by left |].
  right. split; [done |]. split; [done |].
  assert (forall p : Event -> bool,
            (forall e, failure_event e -> p e = false) ->
            count p (run rs w0).2 = count p w0) as Hcount.
  { intros p Hp. rewrite (count_extended p w0 _ evs Ht).
    assert (filter (fun e => p e = true) evs = []) as ->; [|simpl; lia].
    clear Ht. induction Hf as [|e evs He _ IH]; [done |].
    rewrite filter_cons, decide_False; [done |]. by rewrite (Hp e He). }
  split; [|split; [|by exists evs]].
  - apply Hcount. by intros [[]| | |].
  - apply Hcount. by intros [[]| | |].
Qed.

Lemma serve_ineffective (r : Request) (w : World) :
  effective r = false -> exists resp, serve r w = (Normal resp, w).
Proof.
  destruct r as [b|]; simpl; intros Hr.
  - rewrite chat_falsy by done. by eexists.
  - by eexists.
Qed.

(** X11. Requests that do not get past the message check, and health
    requests, leave no mark: the process ends in the same state as if
    they had never been sent. *)
Theorem ineffective_requests_leave_no_mark (rs : list Request) (w : World) :
  (run (filter (fun r => effective r = true) rs) w).2 = (run rs w).2.
Proof.
  revert w. induction rs as [|r rs IH]; intros w; [done |].
  rewrite filter_cons. destruct (decide (effective r = true)) as [Hr|Hr].
  - simpl. destruct (serve r w) as [[resp|] w1]; [|done].
    specialize (IH w1).
    destruct (run (filter _ rs) w1), (run rs w1). done.
  - apply not_true_is_false in Hr.
    destruct (serve_ineffective r w Hr) as [resp Hs].
    simpl. rewrite Hs. rewrite IH. by destruct (run rs w).
Qed.

Lemma init_events_no_chat_error (evs : list Event) :
  Forall init_event evs ->
  filter (fun e => is_chat_error e = true) evs = [].
Proof.
  induction 1 as [|e evs He _ IH]; [done |].
  rewrite filter_cons, IH.
  destruct e as [b| | |label]; simpl in *; try done.
  by subst label.
Qed.

(** X12. The [catch] block of the chat handler runs exactly when the
    answer is 500: a request adds one "Error processing chat:" line to
    the error log if it is answered 500, and none otherwise. *)
Theorem failure_logged_iff_500 (req_body : gmap string JsValue) (w : World) :
  exists resp, (chat req_body w).1 = Normal resp
  /\ chat_errors (chat req_body w).2
     = (chat_errors w + if decide (status resp = 500%nat) then 1 else 0)%nat.
Proof.
  destruct (js_truthy (get_message req_body)) eqn:Hm;
    [|rewrite chat_falsy by done; eexists; split; [done |]; simpl; lia].
  destruct (lazy_init_effect w) as (ievs & Hh & Ht & Hi & _).
  pose proof (init_events_no_chat_error ievs Hi) as Hnone.
  assert (forall ms vs um closing,
            chat_errors (turn_world (lazy_init w).2 um ms vs closing)
            = (chat_errors w
               + length (filter (fun e => is_chat_error e = true) closing))%nat)
    as Hturn.
  { intros ms vs um closing. unfold chat_errors.
    rewrite (count_extended is_chat_error w
               (turn_world (lazy_init w).2 um ms vs closing)
               (ievs ++ AgentStream (messageHistory (lazy_init w).2 ++ [um])
                                    (config (lazy_init w).2)
                        :: (ConsoleLog <$> vs) ++ closing)).
    - rewrite filter_app, Hnone. simpl.
      rewrite filter_cons, decide_False by done.
      by rewrite filter_app, filter_console_logs.
    - simpl. by rewrite Ht, <- app_assoc. }
  destruct (chat_effect req_body w Hm)
    as [[-> _] | (um & a & ms & vs & _ & _ & _ & [-> | ->])];
    eexists; (split; [done |]); cbn [fst snd].
  - unfold chat_errors.
    rewrite (count_extended is_chat_error w
               (emit chat_error (lazy_init w).2).2 (ievs ++ [chat_error])).
    + rewrite filter_app, Hnone. done.
    + simpl. by rewrite Ht, <- app_assoc.
  - rewrite Hturn. simpl. lia.
  - rewrite Hturn. done.
Qed.

(** X13. A request with a message whose initialization fails changes
    nothing but the error log, which gets the line of [initializeAgent]
    and then the line of the handler; the answer is 500. *)
Theorem failed_initialization_only_logs (req_body : gmap string JsValue)
    (w : World) :
  js_truthy (get_message req_body) = true ->
  agent w = None ->
  createReactAgent (init_calls w) = None ->
  chat req_body w
  = (Normal internal_error,
     {| agent := None; config := config w;
        messageHistory := messageHistory w;
        trace := trace w ++ [InitializeAgent false;
                             ConsoleError "Failed to initialize agent:";
                             chat_error] |}).
Proof.
  intros Hm Ha Hc. rewrite chat_init_fails by done. by rewrite Ha.
Qed.

Lemma serve_block (r : Request) (w : World) :
  exists resp block,
    (serve r w).1 = Normal resp
    /\ messageHistory (serve r w).2 = messageHistory w ++ block
    /\ turn_block r resp block.
Proof.
  destruct r as [b|]; simpl.
  - destruct (js_truthy (get_message b)) eqn:Hm.
    + destruct (lazy_init_effect w) as (ievs & Hh & _).
      destruct (chat_effect b w Hm)
        as [[-> _] | (um & a & ms & vs & Hum & _ & _ & [-> | ->])]; simpl.
      * exists internal_error, []. rewrite app_nil_r.
        split; [done |]. split; [done |]. left. split; [done | by right].
      * eexists _, (um :: ms). rewrite Hh. split; [done |]. split; [done |].
        right. exists um, ms. split; [done |]. split; [done | by right].
      * eexists _, (um :: ms). rewrite Hh. split; [done |]. split; [done |].
        right. exists um, ms. split; [done |]. split; [done | by left].
    + rewrite chat_falsy by done. eexists _, []. rewrite app_nil_r.
      split; [done |]. split; [done |]. left. split; [done | by left].
  - eexists _, []. by rewrite app_nil_r.
Qed.

(** X14. The history after any sequence of requests is the history
    before it followed by one block per request, in the order of the
    requests: nothing for a health request or a chat request that fails
    before the push, and otherwise the user message of that request
    followed by the agent messages of its turn, whose texts are the
    response when the answer is 200. *)
Theorem history_is_blocks_of_turns (rs : list Request) (w : World) :
  exists blocks : list (list BaseMessage),
    messageHistory (run rs w).2 = messageHistory w ++ concat blocks
    /\ Forall2 (fun served block => turn_block served.1 served.2 block)
               (zip rs (run rs w).1) blocks.
Proof.
  revert w. induction rs as [|r rs IH]; intros w.
  - exists []. simpl. rewrite app_nil_r. by split.
  - simpl. destruct (serve_block r w) as (resp & block & Hr & Hh & Hb).
    destruct (serve r w) as [[resp'|] w1]; simpl in *; [|done].
    injection Hr as ->.
    destruct (IH w1) as (blocks & Hh' & Hbs).
    destruct (run rs w1) as [resps w2]; simpl in *.
    exists (block :: blocks). simpl. split.
    + by rewrite Hh', Hh, <- app_assoc.
    + by constructor.
Qed.

(** ** The session config on every turn *)

(** C7. The session config is built at most once in the life of the
    process and is the one value every turn hands to the engine.  In
    every state the process can reach, [initializeAgent] has returned
    at most once, every stream call made so far was given that config,
    and the variable [config] is unset or holds it.  And a request made
    in such a state, whose message [new HumanMessage] accepts and for
    which the agent is bound after the lazy initialization, calls
    [agent.stream] with the whole history, the new user message and
    that same config: the answer is read from that stream, and the call
    is in the trace. *)
Theorem session_config_built_once_and_reused (rs : list Request)
    (req_body : gmap string JsValue) (um : BaseMessage) (a : Agent) :
  init_successes (run rs initial).2 <= 1
  /\ Forall stream_config_ok (trace (run rs initial).2)
  /\ (config (run rs initial).2 = None
      \/ config (run rs initial).2 = Some session_config)
  /\ (js_truthy (get_message req_body) = true ->
      HumanMessage (get_message req_body) = Some um ->
      agent (lazy_init (run rs initial).2).2 = Some a ->
      config (lazy_init (run rs initial).2).2 = Some session_config
      /\ chat req_body (run rs initial).2
         = match for_await
                   (stream a (stream_calls (run rs initial).2)
                           (messageHistory (run rs initial).2 ++ [um])
                           (Some session_config))
                   []
                   {| agent := Some a;
                      config := Some session_config;
                      messageHistory := messageHistory (run rs initial).2 ++ [um];
                      trace := trace (lazy_init (run rs initial).2).2
                               ++ [AgentStream
                                     (messageHistory (run rs initial).2 ++ [um])
                                     (Some session_config)] |}
           with
           | (Normal responses, w3) =>
               (Normal (res_json (ResponseBody (join "" responses))), w3)
           | (Thrown, w3) => chat_catch w3
           end
      /\ AgentStream (messageHistory (run rs initial).2 ++ [um])
                     (Some session_config)
         ∈ trace (chat req_body (run rs initial).2).2).
Proof.
  pose proof (run_consistent rs initial consistent_initial) as [Hw Htr].
  set (w := (run rs initial).2) in *.
  split; [|split; [done |split]].
  - destruct (agent w); [destruct Hw as [_ ->] | destruct Hw as (_ & _ & ->)]; lia.
  - destruct (agent w); [destruct Hw as [-> _] | destruct Hw as (-> & _)]; auto.
  - intros Hm Hum Ha.
    destruct (lazy_init_ready w a Ha) as (Hinit & Hh & Hcalls).
    assert (config (lazy_init w).2 = Some session_config) as Hcfg.
    { destruct (agent w) as [a0|] eqn:Haw.
      - rewrite (lazy_init_bound w a0 Haw). by destruct Hw.
      - rewrite (lazy_init_unbound w Haw) in *.
        by destruct (createReactAgent (init_calls w)). }
    split; [done |]. split.
    + rewrite (chat_truthy _ _ Hm).
      rewrite Hinit, Hum. cbn [snd]. rewrite Ha, Hh, Hcalls, Hcfg. done.
    + destruct (chat_effect req_body w Hm)
        as [[_ [Hc | Hc]] | (um' & a' & ms & vs & Hum' & _ & _ & Hc)].
      * rewrite Hinit in Hc. done.
      * congruence.
      * assert (um' = um) as -> by congruence.
        assert (forall closing,
                  AgentStream (messageHistory w ++ [um]) (Some session_config)
                  ∈ trace (turn_world (lazy_init w).2 um ms vs closing))
          as Hin.
        { intros closing. unfold turn_world; simpl. rewrite Hh, Hcfg.
          apply elem_of_app. right. apply list_elem_of_here. }
        destruct Hc as [-> | ->]; apply Hin.
Qed.

End Server.


(** ** The scenarios of the specification *)

(** Two agent steps "A" and "B": the answer is "AB". *)
Lemma turn_result_is_concatenation_witness :
  (chat (builds (scripted (yields steps_A_B StreamEnd))) strings_only
        (says "Hello") initial).1
  = Normal (res_json (ResponseBody "AB")).
Proof.
  apply (turn_result_is_concatenation
           (builds (scripted (yields steps_A_B StreamEnd))) strings_only
           initial (says "Hello") (user_text "Hello")
           (scripted (yields steps_A_B StreamEnd)) steps_A_B);
    vm_compute; reflexivity.
Defined.

(** A tool step, then the agent step "Done": the answer is "Done". *)
Lemma tool_output_not_in_result_witness :
  (chat (builds (scripted (yields steps_tool_Done StreamEnd))) strings_only
        (says "What is my balance?") initial).1
  = Normal (res_json (ResponseBody "Done")).
Proof.
  apply (tool_output_not_in_result
           (builds (scripted (yields steps_tool_Done StreamEnd))) strings_only
           initial (says "What is my balance?")
           (user_text "What is my balance?")
           (scripted (yields steps_tool_Done StreamEnd)) steps_tool_Done);
    vm_compute; reflexivity.
Defined.

(** Three steps expected, the stream throws in place of the second:
    500, and the history holds the user message and the first step. *)
Lemma failed_turn_keeps_partial_history_witness :
  (chat (builds (scripted (yields steps_A StreamThrow))) strings_only
        (says "Hello") initial).1
  = Normal (res_status_json 500 (ErrorBody "Internal server error"))
  /\ messageHistory
       (chat (builds (scripted (yields steps_A StreamThrow))) strings_only
             (says "Hello") initial).2
     = [user_text "Hello"; ai_text "A"].
Proof.
  apply (failed_turn_keeps_partial_history
           (builds (scripted (yields steps_A StreamThrow))) strings_only
           initial (says "Hello") (user_text "Hello")
           (scripted (yields steps_A StreamThrow)) steps_A StreamThrow);
    vm_compute; reflexivity.
Defined.

Lemma greeted_reached :
  (run (builds (scripted (yields steps_Hi_there StreamEnd))) strings_only
       [PostChat (says "Hello")] initial).2
  = greeted.
Proof. vm_compute. reflexivity. Qed.

(** No [message] field, and an empty one, after a first turn. *)
Lemma missing_message_rejected_witness :
  chat (builds (scripted (yields steps_Hi_there StreamEnd))) strings_only
       ∅ greeted
  = (Normal (res_status_json 400 (ErrorBody "Message is required")), greeted)
  /\ chat (builds (scripted (yields steps_Hi_there StreamEnd))) strings_only
          (says "") greeted
     = (Normal (res_status_json 400 (ErrorBody "Message is required")), greeted).
Proof.
  split.
  - apply (missing_message_rejected
             (builds (scripted (yields steps_Hi_there StreamEnd))) strings_only
             greeted ∅).
    left. reflexivity.
  - apply (missing_message_rejected
             (builds (scripted (yields steps_Hi_there StreamEnd))) strings_only
             greeted (says "")).
    right. reflexivity.
Defined.

(** "Hello" answered by the single step "Hi there". *)
Lemma single_agent_step_turn_witness :
  (chat (builds (scripted (yields steps_Hi_there StreamEnd))) strings_only
        (says "Hello") initial).1
  = Normal (res_json (ResponseBody "Hi there"))
  /\ messageHistory
       (chat (builds (scripted (yields steps_Hi_there StreamEnd))) strings_only
             (says "Hello") initial).2
     = [user_text "Hello"; ai_text "Hi there"]
  /\ length (messageHistory
       (chat (builds (scripted (yields steps_Hi_there StreamEnd))) strings_only
             (says "Hello") initial).2)
     = 2%nat.
Proof.
  apply (single_agent_step_turn
           (builds (scripted (yields steps_Hi_there StreamEnd))) strings_only
           initial (says "Hello") (user_text "Hello")
           (scripted (yields steps_Hi_there StreamEnd))
           (chunk_of (AgentStep (ai_text "Hi there"))) (ai_text "Hi there"));
    vm_compute; reflexivity.
Defined.

(** The tool step of the second scenario is printed and not stored. *)
Lemma tool_steps_not_in_history_witness :
  messageHistory
    (chat (builds (scripted (yields steps_tool_Done StreamEnd))) strings_only
          (says "What is my balance?") initial).2
  = [user_text "What is my balance?"; ai_text "Done"]
  /\ trace
       (chat (builds (scripted (yields steps_tool_Done StreamEnd))) strings_only
             (says "What is my balance?") initial).2
     = [InitializeAgent true;
        AgentStream [user_text "What is my balance?"] (Some session_config);
        ConsoleLog (JString "balance: 5 SOL")].
Proof.
  apply (tool_steps_not_in_history
           (builds (scripted (yields steps_tool_Done StreamEnd))) strings_only
           initial (says "What is my balance?")
           (user_text "What is my balance?")
           (scripted (yields steps_tool_Done StreamEnd)) steps_tool_Done
           StreamEnd);
    try (vm_compute; reflexivity).
  left. reflexivity.
Defined.

(** The constructor chain throws on the first request and works on the
    second: 500 first, then the turn runs on an empty history. *)
Example retry_after_failed_initialization :
  run (builds_on_retry (scripted (yields steps_Hi_there StreamEnd))) strings_only
      [PostChat (says "Hello"); PostChat (says "Hello")] initial
  = ([res_status_json 500 (ErrorBody "Internal server error");
      res_json (ResponseBody "Hi there")],
     {| agent := Some (scripted (yields steps_Hi_there StreamEnd));
        config := Some session_config;
        messageHistory := [user_text "Hello"; ai_text "Hi there"];
        trace := [InitializeAgent false;
                  ConsoleError "Failed to initialize agent:";
                  ConsoleError "Error processing chat:";
                  InitializeAgent true;
                  AgentStream [user_text "Hello"] (Some session_config)] |}).
Proof. vm_compute. reflexivity. Qed.

(** With a constructor chain that always throws, the chat endpoint
    answers 500, the health endpoint 200, and nothing is ever stored. *)
Example health_without_agent :
  run never_builds strings_only
      [PostChat (says "Hello"); GetHealth; PostChat (says "Hello")] initial
  = ([res_status_json 500 (ErrorBody "Internal server error");
      res_status_json 200 (StatusBody "ok");
      res_status_json 500 (ErrorBody "Internal server error")],
     {| agent := None; config := None; messageHistory := [];
        trace := [InitializeAgent false;
                  ConsoleError "Failed to initialize agent:";
                  ConsoleError "Error processing chat:";
                  InitializeAgent false;
                  ConsoleError "Failed to initialize agent:";
                  ConsoleError "Error processing chat:"] |}).
Proof. vm_compute. reflexivity. Qed.

(** A chunk with an empty [messages] array makes the loop body throw:
    the turn fails like one whose stream throws. *)
Example empty_update_fails_the_turn :
  (chat (builds (scripted (yields steps_A
           (StreamYield {[ "agent" := {| messages := [] |} ]} StreamEnd))))
        strings_only (says "Hello") initial).1
  = Normal (res_status_json 500 (ErrorBody "Internal server error")).
Proof. vm_compute. reflexivity. Qed.

(** ** Scenarios for the further properties *)

(** The 200 answer "AB" and the history of that turn. *)
Lemma ok_response_matches_history_witness :
  exists um ms,
    HumanMessage strings_only (get_message (says "Hello")) = Some um
    /\ messageHistory
         (chat (builds (scripted (yields steps_A_B StreamEnd))) strings_only
               (says "Hello") initial).2
       = messageHistory initial ++ um :: ms
    /\ "AB" = foldr String.append "" (texts ms).
Proof.
  apply (ok_response_matches_history
           (builds (scripted (yields steps_A_B StreamEnd))) strings_only
           (says "Hello") initial "AB").
  vm_compute. reflexivity.
Defined.

(** The turn with a tool step opens the stream once, on [user]. *)
Lemma stream_opened_once_with_history_witness :
  exists ms vs closing,
    messageHistory
      (chat (builds (scripted (yields steps_tool_Done StreamEnd))) strings_only
            (says "What is my balance?") initial).2
    = messageHistory initial ++ user_text "What is my balance?" :: ms
    /\ trace
         (chat (builds (scripted (yields steps_tool_Done StreamEnd))) strings_only
               (says "What is my balance?") initial).2
       = trace (lazy_init (builds (scripted (yields steps_tool_Done StreamEnd)))
                          initial).2
         ++ AgentStream (messageHistory initial ++ [user_text "What is my balance?"])
              (config (lazy_init (builds (scripted (yields steps_tool_Done StreamEnd)))
                                 initial).2)
            :: (ConsoleLog <$> vs) ++ closing
    /\ (closing = [] \/ closing = [chat_error])
    /\ stream_calls
         (chat (builds (scripted (yields steps_tool_Done StreamEnd))) strings_only
               (says "What is my balance?") initial).2
       = S (stream_calls initial).
Proof.
  apply (stream_opened_once_with_history
           (builds (scripted (yields steps_tool_Done StreamEnd))) strings_only
           (says "What is my balance?") initial
           (user_text "What is my balance?")
           (scripted (yields steps_tool_Done StreamEnd)));
    vm_compute; reflexivity.
Defined.

(** The message 5, with a constructor that takes strings only: 500,
    nothing stored, and the agent built on the way stays. *)
Lemma message_constructor_failure_witness :
  (chat (builds (scripted (yields steps_A StreamEnd))) strings_only
        says_five initial).1
  = Normal internal_error
  /\ messageHistory
       (chat (builds (scripted (yields steps_A StreamEnd))) strings_only
             says_five initial).2
     = messageHistory initial
  /\ stream_calls
       (chat (builds (scripted (yields steps_A StreamEnd))) strings_only
             says_five initial).2
     = stream_calls initial
  /\ agent
       (chat (builds (scripted (yields steps_A StreamEnd))) strings_only
             says_five initial).2
     = match agent initial with
       | Some a => Some a
       | None => builds (scripted (yields steps_A StreamEnd)) (init_calls initial)
       end.
Proof.
  apply (message_constructor_failure
           (builds (scripted (yields steps_A StreamEnd))) strings_only
           says_five initial);
    vm_compute; reflexivity.
Defined.

(** [null], [false] and [0] are turned away like a missing message. *)
Example falsy_messages_rejected :
  Forall (fun v =>
            chat never_builds strings_only {[ "message" := v ]} initial
            = (Normal (res_status_json 400 (ErrorBody "Message is required")),
               initial))
         [JNull; JBool false; JNumber 0; JString ""; JUndefined].
Proof. repeat constructor. Qed.

(** With nothing set all three variables are reported; with an empty
    [RPC_URL] that one alone; a complete environment listens. *)
Example validateEnvironment_empty :
  validateEnvironment ∅
  = ([ConsoleError "Error: Required environment variables are not set";
      ConsoleError "OPENAI_API_KEY=your_openai_api_key_here";
      ConsoleError "RPC_URL=your_rpc_url_here";
      ConsoleError "SOLANA_PRIVATE_KEY=your_solana_private_key_here"],
     Some 1%nat).
Proof. vm_compute. reflexivity. Qed.

Example validateEnvironment_empty_rpc :
  main binds_any env_empty_rpc
  = ([ConsoleError "Error: Required environment variables are not set";
      ConsoleError "RPC_URL=your_rpc_url_here"],
     Some 1%nat).
Proof. vm_compute. reflexivity. Qed.

Example main_ports :
  main binds_any env_complete
  = ([ConsoleLog (JString "Server is running on port 3000")], None)
  /\ main binds_any env_with_port
     = ([ConsoleLog (JString "Server is running on port 8080")], None)
  /\ main binds_any (<["PORT" := ""]> env_complete)
     = ([ConsoleLog (JString "Server is running on port 3000")], None)
  /\ main binds_short (<["PORT" := "99999"]> env_complete)
     = ([], Some 1%nat).
Proof. vm_compute. done. Qed.

(** The first request to a process whose constructor chain throws. *)
Lemma failed_initialization_only_logs_witness :
  chat never_builds strings_only (says "Hello") initial
  = (Normal internal_error,
     {| agent := None; config := config initial;
        messageHistory := messageHistory initial;
        trace := trace initial ++ [InitializeAgent false;
                                   ConsoleError "Failed to initialize agent:";
                                   chat_error] |}).
Proof.
  apply (failed_initialization_only_logs never_builds strings_only
           (says "Hello") initial);
    reflexivity.
Defined.

(** ** Scenarios for the session config, the first message and the start *)

(** The turn after "Hello" was answered: the stream is opened with the
    history of the first turn, the new message and the session config. *)
Lemma session_config_built_once_and_reused_witness :
  config (lazy_init (builds (scripted (yields steps_Hi_there StreamEnd)))
                    greeted).2
  = Some session_config
  /\ AgentStream (messageHistory greeted ++ [user_text "Again"])
                 (Some session_config)
     ∈ trace (chat (builds (scripted (yields steps_Hi_there StreamEnd)))
                   strings_only (says "Again") greeted).2.
Proof.
  destruct (proj2 (proj2 (proj2
              (session_config_built_once_and_reused
                 (builds (scripted (yields steps_Hi_there StreamEnd)))
                 strings_only [PostChat (says "Hello")] (says "Again")
                 (user_text "Again")
                 (scripted (yields steps_Hi_there StreamEnd)))))
              eq_refl eq_refl eq_refl)
    as (Hconfig & _ & Hcall).
  split; [exact Hconfig | exact Hcall].
Defined.

(** "A" with a second message in its update, a chunk of another node,
    then "B": the answer is "AB" and the history gains A and B only. *)
Lemma only_first_message_counts_witness :
  (chat (builds (scripted (yields (chunk_of_step <$> steps_surplus) StreamEnd)))
        strings_only (says "Hello") initial).1
  = Normal (res_json (ResponseBody "AB"))
  /\ messageHistory
       (chat (builds (scripted (yields (chunk_of_step <$> steps_surplus)
                                       StreamEnd)))
             strings_only (says "Hello") initial).2
     = [user_text "Hello"; ai_text "A"; ai_text "B"].
Proof.
  apply (only_first_message_counts
           (builds (scripted (yields (chunk_of_step <$> steps_surplus) StreamEnd)))
           strings_only initial (says "Hello") (user_text "Hello")
           (scripted (yields (chunk_of_step <$> steps_surplus) StreamEnd))
           steps_surplus StreamEnd);
    try (vm_compute; reflexivity).
  left. reflexivity.
Defined.

(** A process that listens and whose constructor chain throws: after a
    chat request, a health request and a request without a message the
    agent is not bound, and since the start only failures were added. *)
Lemma nothing_before_initialization_witness :
  is_Some (agent (run never_builds strings_only
                      [PostChat (says "Hello"); GetHealth; PostChat ∅]
                      listening).2)
  \/ (agent (run never_builds strings_only
                 [PostChat (says "Hello"); GetHealth; PostChat ∅]
                 listening).2 = None
      /\ messageHistory (run never_builds strings_only
                             [PostChat (says "Hello"); GetHealth; PostChat ∅]
                             listening).2
         = messageHistory listening
      /\ stream_calls (run never_builds strings_only
                           [PostChat (says "Hello"); GetHealth; PostChat ∅]
                           listening).2
         = stream_calls listening
      /\ count is_console_log
           (run never_builds strings_only
                [PostChat (says "Hello"); GetHealth; PostChat ∅] listening).2
         = count is_console_log listening
      /\ exists evs,
           trace (run never_builds strings_only
                      [PostChat (says "Hello"); GetHealth; PostChat ∅]
                      listening).2
           = trace listening ++ evs
           /\ Forall failure_event evs).
Proof.
  apply (nothing_before_initialization never_builds strings_only
           [PostChat (says "Hello"); GetHealth; PostChat ∅] listening).
  reflexivity.
Defined.

(** The state [listening] is what the start of the process leaves. *)
Example listening_after_main :
  main binds_any env_complete = (trace listening, None).
Proof. vm_compute. reflexivity. Qed.
